(** * Federal Register miner: a shallow embedding and its properties

    Embeds [federal_register_miner.py] (single-date mode) and
    [historical_fr_miner.py] (multi-date mode).

    Conventions of the embedding.
    - A Python [str] is a list of characters [ascii]; the 256 values of
      [ascii] are read as the code points U+0000..U+00FF, on which
      [str.lower], the regex classes [\s] and [\d] and [int] are written out
      exactly as CPython defines them.
    - Python integers are [Z].
    - The state dictionary [{"published_docs": [...], "next_story_num": n}]
      is a record; the list keeps its order.
    - The calls that reach outside the process ([fetch_documents], the file
      written by [create_story_html], [save_state], [update_index],
      [git_commit_push]) are recorded, in order, in a trace of events.
    - [while True] loops take fuel; running out of fuel is [None].
    - Of the calls inside the [try] of the mining loop only
      [fetch_documents] raises: the documents are well typed and the
      artifact files can be written.  [time.sleep] leaves no event. *)

From Stdlib Require Import List Ascii String ZArith NArith Bool Lia.
From Stdlib Require Import DecimalString DecimalN.
Import ListNotations.

Local Open Scope Z_scope.

(* ================================================================= *)
(** ** Strings *)

Definition str := list ascii.

(** A literal of the source as a [str]. *)
Definition lit (s : string) : str := list_ascii_of_string s.

Definition code (c : ascii) : N := N_of_ascii c.

Definition hyphen : ascii := "-"%char.
Definition underscore : ascii := "_"%char.
Definition zero_char : ascii := "0"%char.
Definition dquote : ascii := "034"%char.
Definition newline : ascii := "010"%char.

Definition in_range (lo hi : N) (c : ascii) : bool :=
  (lo <=? code c)%N && (code c <=? hi)%N.

(** [a-z] *)
Definition is_lower_az (c : ascii) : bool := in_range 97 122 c.

(** [0-9]; on U+0000..U+00FF this is also the class [\d]. *)
Definition is_digit (c : ascii) : bool := in_range 48 57 c.

(** The class [\s] of a [str] pattern, restricted to U+0000..U+00FF:
    TAB..CR, FS..US, SPACE, NEL and NO-BREAK SPACE. *)
Definition is_space (c : ascii) : bool :=
  in_range 9 13 c || in_range 28 31 c || (code c =? 32)%N
  || (code c =? 133)%N || (code c =? 160)%N.

(** [str.lower] on one code point of U+0000..U+00FF: [A-Z] and the
    capitals U+00C0..U+00DE (all but the multiplication sign U+00D7) move up
    by 32; every other code point is its own lower case. *)
Definition lower_char (c : ascii) : ascii :=
  if in_range 65 90 c || (in_range 192 222 c && negb (code c =? 215)%N)
  then ascii_of_N (code c + 32)
  else c.

Definition lower (s : str) : str := map lower_char s.

Definition str_eqb (a b : str) : bool :=
  if list_eq_dec ascii_dec a b then true else false.

(** [s.startswith(p)] *)
Fixpoint startswith (p s : str) : bool :=
  match p, s with
  | [], _ => true
  | _ :: _, [] => false
  | a :: p', b :: s' => Ascii.eqb a b && startswith p' s'
  end.

(** [s.endswith(p)] *)
Definition endswith (p s : str) : bool := startswith (rev p) (rev s).

(** [s.lstrip(c)], [s.rstrip(c)], [s.strip(c)] for a one-character set. *)
Fixpoint lstrip (c0 : ascii) (s : str) : str :=
  match s with
  | [] => []
  | c :: s' => if Ascii.eqb c c0 then lstrip c0 s' else s
  end.

Definition rstrip (c0 : ascii) (s : str) : str := rev (lstrip c0 (rev s)).

Definition strip (c0 : ascii) (s : str) : str := rstrip c0 (lstrip c0 s).

(** The longest prefix of [s] whose characters all satisfy [p]. *)
Fixpoint take_while (p : ascii -> bool) (s : str) : str :=
  match s with
  | [] => []
  | c :: s' => if p c then c :: take_while p s' else []
  end.

(** Decimal numerals. *)
Definition digits_of_N (n : N) : str :=
  list_ascii_of_string (NilZero.string_of_uint (N.to_uint n)).

Definition digit_val (c : ascii) : Z := Z.of_N (code c) - 48.

(** [int(ds)] for a run of decimal digits. *)
Definition int_of_digits (ds : str) : Z :=
  fold_left (fun acc c => 10 * acc + digit_val c) ds 0.

(** [str(n)] for an integer. *)
Definition str_of_Z (n : Z) : str :=
  if n <? 0 then hyphen :: digits_of_N (Z.abs_N n) else digits_of_N (Z.to_N n).

Definition zfill (w : nat) (s : str) : str :=
  repeat zero_char (w - List.length s) ++ s.

(** The format [{n:03d}]: width three, zero padded, the sign first. *)
Definition format_03d (n : Z) : str :=
  if n <? 0 then hyphen :: zfill 2 (digits_of_N (Z.abs_N n))
  else zfill 3 (digits_of_N (Z.to_N n)).

(* ================================================================= *)
(** ** [slugify] *)

(** Characters that survive [re.sub(r'[^a-z0-9\s-]', '', slug)]. *)
Definition slug_keep (c : ascii) : bool :=
  is_lower_az c || is_digit c || is_space c || Ascii.eqb c hyphen.

(** The class [[\s_-]]. *)
Definition is_sep (c : ascii) : bool :=
  is_space c || Ascii.eqb c underscore || Ascii.eqb c hyphen.

(** [re.sub(r'[\s_-]+', '-', s)]: every maximal run of separators becomes
    one hyphen.  [in_run] tells that the previous character was a
    separator, whose hyphen is already out. *)
Fixpoint collapse_runs (in_run : bool) (s : str) : str :=
  match s with
  | [] => []
  | c :: s' =>
      if is_sep c
      then if in_run then collapse_runs true s'
           else hyphen :: collapse_runs true s'
      else c :: collapse_runs false s'
  end.

Definition slugify (title : str) : str :=
  let slug := lower title in
  let slug := filter slug_keep slug in
  let slug := collapse_runs false slug in
  let slug := strip hyphen slug in
  firstn 50 slug.

(* ================================================================= *)
(** ** [get_next_story_num] *)

(** [re.match(r'story-(\d+)', f)] followed by [int(match.group(1))]. *)
Fixpoint drop_prefix (p s : str) : option str :=
  match p, s with
  | [], _ => Some s
  | _ :: _, [] => None
  | a :: p', b :: s' => if Ascii.eqb a b then drop_prefix p' s' else None
  end.

Definition match_story_num (f : str) : option Z :=
  match drop_prefix (lit "story-") f with
  | None => None
  | Some rest =>
      match take_while is_digit rest with
      | [] => None
      | ds => Some (int_of_digits ds)
      end
  end.

Definition is_story_file (f : str) : bool :=
  startswith (lit "story-") f && endswith (lit ".html") f.

(** [max(nums)] of a non-empty list. *)
Definition list_max_Z (x : Z) (xs : list Z) : Z := fold_left Z.max xs x.

(** [listdir] is [os.listdir(REPO_DIR)]. *)
Definition get_next_story_num (listdir : list str) : Z :=
  let existing := filter is_story_file listdir in
  match existing with
  | [] => 1
  | _ =>
      let nums :=
        flat_map (fun f => match match_story_num f with
                           | Some n => [n]
                           | None => []
                           end) existing in
      match nums with
      | [] => 1
      | n :: ns => list_max_Z n ns + 1
      end
  end.

(* ================================================================= *)
(** ** Documents, state, stories and the trace *)

(** A document of the API's [results] array.  A key the document lacks is
    [None].  Of the keys [create_story_html] reads, only [title] reaches the
    file name and the headline and only [document_number] reaches the
    ledger; the others fill the body of the artifact. *)
Record Doc := {
  title : option str;
  document_number : option str
}.

(** The state dictionary. *)
Record State := {
  published_docs : list str;
  next_story_num : Z
}.

(** A story record [(filename, headline)]. *)
Definition Story : Type := str * str.

(** What one run does to the world outside, in order. *)
Inductive Event :=
| Fetch (date : str) (page : Z)
| WriteStory (doc : Doc) (story_num : Z) (filename : str)
| WriteIndex (content : str)
| SaveState (s : State)
| GitPush (message : str).

(** The JSON object a fetch returns: [results] (an absent key reads as the
    empty list) and [total_pages]. *)
Record Page := {
  results : list Doc;
  total_pages : option Z
}.

(** [fetch_documents] either returns the decoded page or raises. *)
Inductive Response :=
| FetchError
| FetchOk (data : Page).

(** The upstream API: the response to a request for a date and a page. *)
Definition Api : Type := str -> Z -> Response.

Definition len {A} (l : list A) : Z := Z.of_nat (List.length l).

(** [x in xs] on a list of strings. *)
Definition mem (x : str) (xs : list str) : bool := existsb (str_eqb x) xs.

(** [load_state]: the decoded state file, or the default when there is
    none. *)
Definition load_state (state_file : option State) : State :=
  match state_file with
  | Some s => s
  | None => {| published_docs := []; next_story_num := 547 |}
  end.

(** [doc.get('document_number', '')] *)
Definition doc_num (doc : Doc) : str :=
  match document_number doc with
  | Some n => n
  | None => []
  end.

(** [doc.get('title', 'Untitled')] *)
Definition doc_title (doc : Doc) : str :=
  match title doc with
  | Some t => t
  | None => lit "Untitled"
  end.

(** [create_story_html]: the file name it writes to and the pair it
    returns. *)
Definition create_story_html (doc : Doc) (story_num : Z) : Story :=
  let title := doc_title doc in
  let headline := lit "Federal Register: " ++ title in
  let slug := slugify title in
  let filename :=
    lit "story-" ++ format_03d story_num ++ lit "-fr-" ++ slug ++ lit ".html" in
  (filename, headline).

(* ================================================================= *)
(** ** The summary of an artifact *)

(** The keys of a document that [create_story_html] reads for the summary
    of the artifact: [type], [abstract] (the field [doc_abstract]; absent
    or null is [None]; [text] below is the variable [abstract]) and
    [agencies], a list of objects of which only the [name] is read (an
    agency without the key is [None]). *)
Record Details := {
  doc_type : option str;
  doc_abstract : option str;
  agencies : list (option str)
}.

(** [sep.join(parts)] *)
Fixpoint join (sep : str) (parts : list str) : str :=
  match parts with
  | [] => []
  | [p] => p
  | p :: rest => p ++ sep ++ join sep rest
  end.

(** [', '.join([a.get('name', '') for a in agencies]) or 'Federal Government'] *)
Definition agency_names (agencies : list (option str)) : str :=
  let names := map (fun a => match a with
                             | Some name => name
                             | None => []
                             end) agencies in
  match join (lit ", ") names with
  | [] => lit "Federal Government"
  | joined => joined
  end.

(** The summary [create_story_html] puts in the artifact. *)
Definition summary (d : Details) : str :=
  let doc_type := match doc_type d with
                  | Some t => t
                  | None => lit "Document"
                  end in
  let text := match doc_abstract d with
              | Some a => a
              | None => []
              end in
  let agency_names := agency_names (agencies d) in
  match text with
  | [] => lit "The Federal Register has published a new " ++ doc_type
          ++ lit " from " ++ agency_names ++ lit "."
  | _ => if (500 <? List.length text)%nat
         then firstn 500 text ++ lit "..."
         else text
  end.

(* ================================================================= *)
(** ** The mining loop *)

(** The local variables of a mining call together with the state
    dictionary it mutates and the trace so far. *)
Record Run := {
  run_state : State;
  new_stories : list Story;
  run_trace : list Event
}.

Definition start (state : State) : Run :=
  {| run_state := state; new_stories := []; run_trace := [] |}.

Definition log (e : Event) (r : Run) : Run :=
  {| run_state := run_state r;
     new_stories := new_stories r;
     run_trace := run_trace r ++ [e] |}.

(** The body of [for doc in results] past the ledger test. *)
Definition publish (doc : Doc) (r : Run) : Run :=
  let state := run_state r in
  let story_num := next_story_num state in
  let '(filename, headline) := create_story_html doc story_num in
  {| run_state :=
       {| published_docs := published_docs state ++ [doc_num doc];
          next_story_num := story_num + 1 |};
     new_stories := new_stories r ++ [(filename, headline)];
     run_trace := run_trace r ++ [WriteStory doc story_num filename] |}.

(** [len(new_stories) >= batch_size]; [mine_date_all] has no such test,
    which is the limit [None]. *)
Definition batch_full (limit : option Z) (r : Run) : bool :=
  match limit with
  | Some batch_size => len (new_stories r) >=? batch_size
  | None => false
  end.

(** [for doc in results]; the flag tells that the function returned from
    inside the loop. *)
Fixpoint for_docs (limit : option Z) (docs : list Doc) (r : Run) : Run * bool :=
  match docs with
  | [] => (r, false)
  | doc :: rest =>
      if mem (doc_num doc) (published_docs (run_state r))
      then for_docs limit rest r
      else
        let r' := publish doc r in
        if batch_full limit r' then (r', true) else for_docs limit rest r'
  end.

(** [data.get('total_pages', 1)] *)
Definition get_total_pages (data : Page) : Z :=
  match total_pages data with
  | Some n => n
  | None => 1
  end.

(** [while True], entered with the current [page]. *)
Fixpoint mine_pages (fuel : nat) (api : Api) (date : str) (limit : option Z)
    (page : Z) (r : Run) : option Run :=
  match fuel with
  | O => None
  | S fuel' =>
      let r := log (Fetch date page) r in
      match api date page with
      | FetchError => Some r
      | FetchOk data =>
          match results data with
          | [] => Some r
          | docs =>
              let '(r, returned) := for_docs limit docs r in
              if returned then Some r
              else
                let page := page + 1 in
                if page >? get_total_pages data then Some r
                else mine_pages fuel' api date limit page r
          end
      end
  end.

(** The files of the repository directory a run reads. *)
Record World := {
  state_file : option State;
  listdir : list str;
  index_file : option str
}.

Definition set_next_story_num (state : State) (n : Z) : State :=
  {| published_docs := published_docs state; next_story_num := n |}.

(* ----------------------------------------------------------------- *)
(** *** [federal_register_miner.py] *)

Module Daily.

Definition mine_date (fuel : nat) (api : Api) (date_str : str) (state : State)
    (batch_size : Z) : option Run :=
  mine_pages fuel api date_str (Some batch_size) 1 (start state).

Definition unlines (ls : list string) : str :=
  flat_map (fun l => lit l ++ [newline]) ls.

Definition default_index : str :=
  unlines [
    "<!DOCTYPE html>";
    "<html>";
    "<head>";
    "    <title>Opus Claude Code Breaking News Wire</title>";
    "    <style>";
    "        body { font-family: Georgia, serif; max-width: 900px; margin: 0 auto; padding: 20px; }";
    "        h1 { border-bottom: 3px solid #dc3545; }";
    "        ul { list-style-type: none; padding: 0; }";
    "        li { padding: 10px; border-bottom: 1px solid #eee; }";
    "        a { color: #333; text-decoration: none; }";
    "        a:hover { color: #dc3545; }";
    "    </style>";
    "</head>";
    "<body>";
    "    <h1>Opus Claude Code Breaking News Wire</h1>"
  ]%string
  ++ lit "    <ul id=" ++ [dquote] ++ lit "stories" ++ [dquote] ++ lit ">" ++ [newline]
  ++ unlines [
    "    </ul>";
    "</body>";
    "</html>"
  ]%string.

Definition insert_marker : str :=
  lit "<ul id=" ++ [dquote] ++ lit "stories" ++ [dquote] ++ lit ">".

(** [content.find(marker)]; [None] where Python answers -1, which is also
    where [marker in content] is false. *)
Fixpoint find (marker content : str) {struct content} : option nat :=
  if startswith marker content then Some O
  else match content with
       | [] => None
       | _ :: rest => option_map S (find marker rest)
       end.

(** One pass of the loop that builds [new_links]. *)
Definition link (s : Story) : str :=
  let '(filename, headline) := s in
  [newline] ++ lit "        <li><a href=" ++ [dquote] ++ filename ++ [dquote]
  ++ lit ">" ++ headline ++ lit "</a></li>".

Definition links (stories : list Story) : str := flat_map link stories.

(** [update_index]: the content written back to [index.html]. *)
Definition update_index (index_file : option str) (stories : list Story) : str :=
  let content :=
    match index_file with
    | Some c => c
    | None => default_index
    end in
  match find insert_marker content with
  | Some i =>
      let insert_pos := (i + List.length insert_marker)%nat in
      firstn insert_pos content ++ links stories ++ skipn insert_pos content
  | None => content
  end.

Definition push_message (n : Z) (today : str) : str :=
  lit "Federal Register batch: " ++ str_of_Z n ++ lit " documents from " ++ today.

(** [main]: the number returned and the trace of the run. *)
Definition main (fuel : nat) (api : Api) (today : str) (w : World)
    : option (Z * list Event) :=
  let state := load_state (state_file w) in
  let state := set_next_story_num state (get_next_story_num (listdir w)) in
  match mine_date fuel api today state 100 with
  | None => None
  | Some r =>
      match new_stories r with
      | [] => Some (0, run_trace r)
      | stories =>
          Some (len stories,
                run_trace r
                ++ [WriteIndex (update_index (index_file w) stories);
                    SaveState (run_state r);
                    GitPush (push_message (len stories) today)])
      end
  end.

End Daily.

(* ----------------------------------------------------------------- *)
(** *** [historical_fr_miner.py] *)

Module Historical.

Definition mine_date_all (fuel : nat) (api : Api) (date_str : str) (state : State)
    : option Run :=
  mine_pages fuel api date_str None 1 (start state).

Definition push_message (n : Z) : str :=
  lit "Federal Register historical batch: " ++ str_of_Z n ++ lit " documents".

(** The variables of [main] that live across the date loop. *)
Record Loop := {
  state : State;
  total_new : Z;
  batch_stories : list Story;
  trace : list Event
}.

(** One pass of [for i in range(days_back)].  [clock i] is the date string
    of [i] days before now. *)
Definition day (fuel : nat) (api : Api) (clock : nat -> str)
    (batch_commit_size : Z) (i : nat) (l : Loop) : option Loop :=
  match mine_date_all fuel api (clock i) (state l) with
  | None => None
  | Some r =>
      let batch := batch_stories l ++ new_stories r in
      let total := total_new l + len (new_stories r) in
      let tr := trace l ++ run_trace r in
      if len batch >=? batch_commit_size
      then Some {| state := run_state r;
                   total_new := total;
                   batch_stories := [];
                   trace := tr ++ [SaveState (run_state r);
                                   GitPush (push_message (len batch))] |}
      else Some {| state := run_state r;
                   total_new := total;
                   batch_stories := batch;
                   trace := tr |}
  end.

Fixpoint days (fuel : nat) (api : Api) (clock : nat -> str)
    (batch_commit_size : Z) (range : list nat) (l : Loop) : option Loop :=
  match range with
  | [] => Some l
  | i :: range' =>
      match day fuel api clock batch_commit_size i l with
      | None => None
      | Some l' => days fuel api clock batch_commit_size range' l'
      end
  end.

(** The final commit for what remains. *)
Definition final_flush (l : Loop) : list Event :=
  match batch_stories l with
  | [] => []
  | batch => [SaveState (state l); GitPush (push_message (len batch))]
  end.

(** [main]: the number returned and the trace of the run. *)
Definition main (fuel : nat) (api : Api) (clock : nat -> str) (w : World)
    (days_back : nat) (batch_commit_size : Z) : option (Z * list Event) :=
  let state0 := load_state (state_file w) in
  let state0 := set_next_story_num state0 (get_next_story_num (listdir w)) in
  let l0 := {| state := state0; total_new := 0; batch_stories := []; trace := [] |} in
  match days fuel api clock batch_commit_size (seq 0 days_back) l0 with
  | None => None
  | Some l => Some (total_new l, trace l ++ final_flush l)
  end.

End Historical.

(* ================================================================= *)
(** * Vocabulary of the properties *)

(** A character of a slug: a lowercase ASCII letter, a digit or a hyphen. *)
Definition slug_char (c : ascii) : bool :=
  is_lower_az c || is_digit c || Ascii.eqb c hyphen.

(** The sequence number a directory entry carries: the entry has the
    prefix and the extension of an artifact and digits follow the prefix. *)
Definition artifact_seq (f : str) : option Z :=
  if is_story_file f then match_story_num f else None.

Definition seq_list (f : str) : list Z :=
  match match_story_num f with
  | Some n => [n]
  | None => []
  end.

(** Either the batch test has passed on [r] or nothing was published
    since [r0]: the only runs on which the loop goes on. *)
Definition open_batch (limit : option Z) (r0 r : Run) : Prop :=
  batch_full limit r = false \/ new_stories r = new_stories r0.

(** The loop leaves after page [p]: the fetch fails, the page is empty or
    it is the last of [total_pages]. *)
Definition stops_at (api : Api) (date : str) (p : Z) : Prop :=
  match api date p with
  | FetchError => True
  | FetchOk data => results data = [] \/ get_total_pages data <= p
  end.

(** From page [bound] on, every page is one the loop leaves after. *)
Definition api_ends (api : Api) (date : str) (bound : Z) : Prop :=
  forall p, bound <= p -> stops_at api date p.

(** [reaches api date limit r0 p r]: the loop entered at page 1 with [r0]
    comes to the head of its body with page [p] and the run [r]. *)
Inductive reaches (api : Api) (date : str) (limit : option Z) (r0 : Run)
  : Z -> Run -> Prop :=
| reaches_first : reaches api date limit r0 1 r0
| reaches_next p r data r' :
    reaches api date limit r0 p r ->
    api date p = FetchOk data ->
    results data <> [] ->
    for_docs limit (results data) (log (Fetch date p) r) = (r', false) ->
    p + 1 <= get_total_pages data ->
    reaches api date limit r0 (p + 1) r'.

(** [mined fuel api date state res]: a mining call of either program, on
    [date] from [state], returns with the run [res]. *)
Definition mined (fuel : nat) (api : Api) (date : str) (state : State)
    (res : Run) : Prop :=
  (exists batch_size, Daily.mine_date fuel api date state batch_size = Some res)
  \/ Historical.mine_date_all fuel api date state = Some res.

(** The events a run that publishes nothing leaves: fetches only. *)
Definition is_fetch (date : str) (e : Event) : Prop :=
  exists p, e = Fetch date p.

Definition lacks_number (doc : Doc) : bool :=
  match document_number doc with
  | None => true
  | Some _ => false
  end.

Definition writes_unnumbered (e : Event) : bool :=
  match e with
  | WriteStory doc _ _ => lacks_number doc
  | _ => false
  end.

(** The publications in a trace of documents without a number. *)
Definition unnumbered_writes (tr : list Event) : list Event :=
  filter writes_unnumbered tr.

(** Two worlds that differ at most in the [next_story_num] of the state
    file. *)
Definition same_but_cursor (w1 w2 : World) : Prop :=
  option_map published_docs (state_file w1)
  = option_map published_docs (state_file w2)
  /\ listdir w1 = listdir w2
  /\ index_file w1 = index_file w2.

Definition is_checkpoint (e : Event) : Prop :=
  match e with
  | SaveState _ | GitPush _ => True
  | _ => False
  end.





Definition uint_chars (d : Decimal.uint) : str :=
  list_ascii_of_string (NilEmpty.string_of_uint d).

Definition int_step (acc : Z) (c : ascii) : Z := 10 * acc + digit_val c.

(** The documents of [docs] with the sequence numbers [n], [n+1], ... *)
Fixpoint numbered (n : Z) (docs : list Doc) : list (Doc * Z) :=
  match docs with
  | [] => []
  | d :: ds => (d, n) :: numbered (n + 1) ds
  end.

Definition story_of (dn : Doc * Z) : Story :=
  create_story_html (fst dn) (snd dn).

Definition write_of (dn : Doc * Z) : Event :=
  WriteStory (fst dn) (snd dn) (fst (story_of dn)).

Definition is_write (e : Event) : bool :=
  match e with
  | WriteStory _ _ _ => true
  | _ => false
  end.

(** The artifacts written in a trace, in order. *)
Definition writes (tr : list Event) : list Event := filter is_write tr.

(** The publications of a run, in one statement: the documents [docs] it
    published, none of which was in the ledger and no two of which share an
    identifier, numbered from the cursor on. *)
Definition published (r res : Run) (docs : list Doc) : Prop :=
  published_docs (run_state res)
  = published_docs (run_state r) ++ map doc_num docs
  /\ next_story_num (run_state res) = next_story_num (run_state r) + len docs
  /\ new_stories res
     = new_stories r
       ++ map story_of (numbered (next_story_num (run_state r)) docs)
  /\ writes (run_trace res)
     = writes (run_trace r)
       ++ map write_of (numbered (next_story_num (run_state r)) docs)
  /\ NoDup (map doc_num docs)
  /\ (forall d, In d docs -> ~ In (doc_num d) (published_docs (run_state r))).

Definition fetch_of (e : Event) : list (str * Z) :=
  match e with
  | Fetch d p => [(d, p)]
  | _ => []
  end.

(** The requests of a trace, in order: date and page. *)
Definition fetches (tr : list Event) : list (str * Z) := flat_map fetch_of tr.

(** The requests for [n] pages of [date] in a row, from page [p] on. *)
Definition pages_from (date : str) (p : Z) (n : nat) : list (str * Z) :=
  map (fun i => (date, p + Z.of_nat i)) (seq 0 n).

(** Two hyphens in a row somewhere in [s]. *)
Fixpoint double_hyphen (s : str) : bool :=
  match s with
  | a :: ((b :: _) as t) =>
      (Ascii.eqb a hyphen && Ascii.eqb b hyphen) || double_hyphen t
  | _ => false
  end.

(** The file name written for a numbered document. *)
Definition name_of (dn : Doc * Z) : str := fst (story_of dn).

(** The file names written in a trace, in order. *)
Definition written_names (tr : list Event) : list str :=
  flat_map (fun e => match e with
                     | WriteStory _ _ f => [f]
                     | _ => []
                     end) tr.

(** A run of one of the two programs in the world [w] returns [n] and
    leaves the trace [tr]. *)
Definition main_returns (w : World) (n : Z) (tr : list Event) : Prop :=
  (exists fuel api today, Daily.main fuel api today w = Some (n, tr))
  \/ (exists fuel api clock days_back batch_commit_size,
         Historical.main fuel api clock w days_back batch_commit_size
         = Some (n, tr)).

(** The cursor and the ledger both [main]s start mining with. *)
Definition first_state (w : World) : State :=
  set_next_story_num (load_state (state_file w))
                     (get_next_story_num (listdir w)).

(** The state of the last [save_state] of a trace. *)
Fixpoint last_saved (tr : list Event) : option State :=
  match tr with
  | [] => None
  | e :: tr' =>
      match last_saved tr' with
      | Some s => Some s
      | None => match e with
                | SaveState s => Some s
                | _ => None
                end
      end
  end.

(** A request or an artifact: the events of mining. *)
Definition is_mining (e : Event) : Prop :=
  match e with
  | Fetch _ _ | WriteStory _ _ _ => True
  | _ => False
  end.

Definition is_request (e : Event) : Prop :=
  match e with
  | Fetch _ _ => True
  | _ => False
  end.

Definition is_push (e : Event) : bool :=
  match e with
  | GitPush _ => true
  | _ => false
  end.

(** The pushes of a trace. *)
Definition pushes (tr : list Event) : list Event := filter is_push tr.

(** The requests for the first [snd ik] pages of the date [fst ik] days
    back. *)
Definition day_requests (clock : nat -> str) (ik : nat * nat) : list (str * Z) :=
  pages_from (clock (fst ik)) 1 (snd ik).

(** The content of the last [index.html] written in a trace. *)
Fixpoint last_index (tr : list Event) : option str :=
  match tr with
  | [] => None
  | e :: tr' =>
      match last_index tr' with
      | Some c => Some c
      | None => match e with
                | WriteIndex c => Some c
                | _ => None
                end
      end
  end.

(** The names of the state file and of the index, where a trace wrote
    them. *)
Definition bookkeeping_names (tr : list Event) : list str :=
  match last_index tr with
  | Some _ => [lit "index.html"]
  | None => []
  end
  ++ match last_saved tr with
     | Some _ => [lit "fr_state.json"]
     | None => []
     end.

(** The files of the repository directory after a run that left the trace
    [tr] in the world [w]. *)
Definition world_after (w : World) (tr : list Event) : World :=
  {| state_file := match last_saved tr with
                   | Some s => Some s
                   | None => state_file w
                   end;
     listdir := listdir w ++ written_names tr ++ bookkeeping_names tr;
     index_file := match last_index tr with
                   | Some c => Some c
                   | None => index_file w
                   end |}.

(* ================================================================= *)
(** * Sample inputs *)

Definition sample_listdir : list str :=
  [lit "story-012-fr-a.html"; lit "index.html"; lit "story-7.html";
   lit "story-.html"; lit "story-99.txt"; lit "fr_state.json"].

Definition sample_doc (n : nat) : Doc :=
  {| title := Some (lit "Notice of Meeting " ++ digits_of_N (N.of_nat n));
     document_number := Some (lit "2024-0" ++ digits_of_N (N.of_nat n)) |}.

Definition sample_docs (first count : nat) : list Doc :=
  map sample_doc (seq first count).

Definition sample_date : str := lit "2024-01-15".

Definition fresh_state : State :=
  {| published_docs := []; next_story_num := 1 |}.

Definition no_page : Page := {| results := []; total_pages := Some 1 |}.

(** One page of two documents. *)
Definition two_docs_api : Api :=
  fun _ page =>
    if page =? 1
    then FetchOk {| results := sample_docs 1 2; total_pages := Some 1 |}
    else FetchOk no_page.

(** Three pages announced; the second fetch fails. *)
Definition failing_api : Api :=
  fun _ page =>
    if page =? 1
    then FetchOk {| results := sample_docs 1 2; total_pages := Some 3 |}
    else FetchError.

(** A page with two documents that lack the key and one that has it. *)
Definition unnumbered_api : Api :=
  fun _ page =>
    if page =? 1
    then FetchOk {| results := [ {| title := Some (lit "First Notice");
                                    document_number := None |};
                                 {| title := Some (lit "Second Notice");
                                    document_number := None |};
                                 sample_doc 1 ];
                    total_pages := Some 1 |}
    else FetchOk no_page.

Definition sample_world (cursor : Z) : World :=
  {| state_file := Some {| published_docs := [lit "2024-01"];
                           next_story_num := cursor |};
     listdir := sample_listdir;
     index_file := None |}.

(** The dates of today and of the two days before. *)
Definition sample_clock (i : nat) : str :=
  lit "2024-01-" ++ digits_of_N (N.of_nat (15 - i)).

(** Forty documents a day, on one page, for each of the three dates. *)
Definition forty_a_day_api : Api :=
  fun date page =>
    if page =? 1 then
      if str_eqb date (sample_clock 0)
      then FetchOk {| results := sample_docs 100 40; total_pages := Some 1 |}
      else if str_eqb date (sample_clock 1)
      then FetchOk {| results := sample_docs 200 40; total_pages := Some 1 |}
      else if str_eqb date (sample_clock 2)
      then FetchOk {| results := sample_docs 300 40; total_pages := Some 1 |}
      else FetchOk no_page
    else FetchOk no_page.

Definition empty_world : World :=
  {| state_file := None; listdir := []; index_file := None |}.

Definition sample_story : Story :=
  create_story_html (sample_doc 1) 13.

Definition seeded_state : State :=
  {| published_docs := [lit "2024-01"]; next_story_num := 13 |}.

(** A page that shows the same document twice. *)
Definition repeating_api : Api :=
  fun _ page =>
    if page =? 1
    then FetchOk {| results := [sample_doc 1; sample_doc 2; sample_doc 1];
                    total_pages := Some 1 |}
    else FetchOk no_page.

(* ================================================================= *)
(** * Properties *)

Example slugify_spec_scenario :
  slugify (lit "New Rule: Import Tariffs!!") = lit "new-rule-import-tariffs".
Proof. vm_compute. reflexivity. Qed.

Example format_examples :
  format_03d 7 = lit "007" /\ format_03d 1234 = lit "1234" /\ format_03d (-5) = lit "-05"
  /\ format_03d 0 = lit "000".
Proof. vm_compute. repeat split. Qed.

Example next_num_example :
  get_next_story_num [lit "story-012-fr-a.html"; lit "index.html"; lit "story-7.html";
                      lit "story-.html"; lit "story-99.txt"] = 13.
Proof. vm_compute. reflexivity. Qed.

(* ----------------------------------------------------------------- *)
(** ** Strings: lists after [lstrip], [rstrip] and slicing *)

Lemma lstrip_suffix (c0 : ascii) (s : str) :
  exists p, s = p ++ lstrip c0 s.
Proof.
  induction s as [|c s IH]; simpl.
  - exists []. reflexivity.
  - destruct (Ascii.eqb c c0).
    + destruct IH as [p Hp]. exists (c :: p). simpl. now f_equal.
    + exists []. reflexivity.
Qed.

Lemma lstrip_head (c0 : ascii) (s : str) :
  hd_error (lstrip c0 s) <> Some c0.
Proof.
  induction s as [|c s IH]; simpl.
  - discriminate.
  - destruct (Ascii.eqb c c0) eqn:E; [exact IH|].
    simpl. intros [= ->]. now rewrite Ascii.eqb_refl in E.
Qed.

Lemma rstrip_prefix (c0 : ascii) (s : str) :
  exists q, s = rstrip c0 s ++ q.
Proof.
  unfold rstrip. destruct (lstrip_suffix c0 (rev s)) as [p Hp].
  exists (rev p).
  rewrite <- rev_app_distr, <- Hp. symmetry. apply rev_involutive.
Qed.

Lemma rstrip_last (c0 : ascii) (s : str) :
  hd_error (rev (rstrip c0 s)) <> Some c0.
Proof.
  unfold rstrip. rewrite rev_involutive. apply lstrip_head.
Qed.

Lemma hd_error_prefix {A} (p q : list A) (x : A) :
  hd_error p = Some x -> hd_error (p ++ q) = Some x.
Proof. destruct p; simpl; congruence. Qed.

Lemma hd_error_firstn {A} (n : nat) (l : list A) (x : A) :
  hd_error (firstn n l) = Some x -> hd_error l = Some x.
Proof. destruct n, l; simpl; congruence. Qed.

Lemma Forall_lstrip (P : ascii -> Prop) (c0 : ascii) (s : str) :
  Forall P s -> Forall P (lstrip c0 s).
Proof.
  intros H. destruct (lstrip_suffix c0 s) as [p Hp].
  rewrite Hp in H. now apply Forall_app in H.
Qed.

Lemma Forall_rstrip (P : ascii -> Prop) (c0 : ascii) (s : str) :
  Forall P s -> Forall P (rstrip c0 s).
Proof.
  intros H. destruct (rstrip_prefix c0 s) as [q Hq].
  rewrite Hq in H. now apply Forall_app in H.
Qed.

Lemma Forall_firstn {A} (P : A -> Prop) (n : nat) (l : list A) :
  Forall P l -> Forall P (firstn n l).
Proof.
  intros H. rewrite <- (firstn_skipn n l) in H. now apply Forall_app in H.
Qed.

(* ----------------------------------------------------------------- *)
(** ** [slugify] *)

Lemma collapse_runs_chars (b : bool) (s : str) :
  Forall (fun c => slug_keep c = true) s ->
  Forall (fun c => slug_char c = true) (collapse_runs b s).
Proof.
  intros H. revert b. induction H as [|c s Hc _ IH]; intros b; simpl.
  - constructor.
  - destruct (is_sep c) eqn:Es.
    + destruct b; [apply IH|]. constructor; [|apply IH].
      reflexivity.
    + constructor; [|apply IH].
      unfold slug_keep in Hc. unfold is_sep in Es. unfold slug_char.
      destruct (is_lower_az c), (is_digit c), (is_space c),
        (Ascii.eqb c hyphen), (Ascii.eqb c underscore);
        simpl in *; congruence.
Qed.

(** The slug is made of lowercase ASCII letters, digits and hyphens. *)
Lemma slugify_chars (t : str) :
  Forall (fun c => slug_char c = true) (slugify t).
Proof.
  unfold slugify, strip.
  apply Forall_firstn, Forall_rstrip, Forall_lstrip, collapse_runs_chars.
  apply Forall_forall. intros c Hc. now apply filter_In in Hc.
Qed.

(** The slug has at most 50 characters. *)
Lemma slugify_length (t : str) : (List.length (slugify t) <= 50)%nat.
Proof. unfold slugify. apply firstn_le_length. Qed.

(** The slug does not start with a hyphen. *)
Lemma slugify_no_leading_hyphen (t : str) :
  hd_error (slugify t) <> Some hyphen.
Proof.
  unfold slugify, strip. intros H.
  apply hd_error_firstn in H.
  set (s := lstrip hyphen _) in *.
  destruct (rstrip_prefix hyphen s) as [q Hq].
  apply (hd_error_prefix _ q) in H. rewrite <- Hq in H.
  now apply (lstrip_head hyphen) in H.
Qed.

(** Before the cut at 50 characters the slug does not end with a hyphen;
    a slug that the cut leaves whole therefore has none at its end. *)
Lemma slugify_no_trailing_hyphen_uncut (t : str) :
  let s := strip hyphen (collapse_runs false (filter slug_keep (lower t))) in
  (List.length s <= 50)%nat ->
  slugify t = s /\ hd_error (rev (slugify t)) <> Some hyphen.
Proof.
  intros s Hlen.
  assert (E : slugify t = s).
  { unfold slugify. fold s. now apply firstn_all2. }
  split; [exact E|]. rewrite E. apply rstrip_last.
Qed.

(** C2: [slugify] strips hyphens before it cuts the slug to 50 characters,
    so a cut that falls right after a separator leaves a hyphen at the end:
    a title of 49 letters, a space and one more letter gives a slug of 50
    characters whose last one is a hyphen. *)
Theorem slugify_trailing_hyphen_after_cut :
  let t := repeat "a"%char 49 ++ lit " b" in
  slugify t = repeat "a"%char 49 ++ [hyphen]
  /\ last (slugify t) zero_char = hyphen.
Proof. vm_compute. split; reflexivity. Qed.

(* ----------------------------------------------------------------- *)
(** ** [get_next_story_num] *)

Lemma in_story_nums (listdir : list str) (n : Z) :
  In n (flat_map seq_list (filter is_story_file listdir))
  <-> exists f, In f listdir /\ artifact_seq f = Some n.
Proof.
  rewrite in_flat_map. unfold artifact_seq, seq_list. split.
  - intros (f & Hf & Hn). apply filter_In in Hf as [Hin Hs].
    exists f. rewrite Hs. split; [exact Hin|].
    destruct (match_story_num f); simpl in Hn; [|contradiction].
    destruct Hn as [->|[]]. reflexivity.
  - intros (f & Hin & Hn). destruct (is_story_file f) eqn:Hs; [|discriminate].
    exists f. split; [apply filter_In; auto|]. rewrite Hn. now left.
Qed.

Lemma list_max_Z_upper (xs : list Z) (x : Z) :
  x <= list_max_Z x xs /\ forall y, In y xs -> y <= list_max_Z x xs.
Proof.
  unfold list_max_Z. revert x. induction xs as [|a xs IH]; intros x; simpl.
  - split; [lia|contradiction].
  - destruct (IH (Z.max x a)) as [H1 H2]. split; [lia|].
    intros y [->|Hy]; [lia|auto].
Qed.

Lemma list_max_Z_in (xs : list Z) (x : Z) :
  In (list_max_Z x xs) (x :: xs).
Proof.
  unfold list_max_Z. revert x. induction xs as [|a xs IH]; intros x; simpl.
  - now left.
  - destruct (IH (Z.max x a)) as [H|H].
    + destruct (Z.max_spec x a) as [[_ E]|[_ E]]; rewrite E in *; simpl; auto.
    + simpl; auto.
Qed.



(* ----------------------------------------------------------------- *)
(** ** The ledger test and the steps of a run *)

Lemma str_eqb_eq (a b : str) : str_eqb a b = true <-> a = b.
Proof.
  unfold str_eqb. destruct (list_eq_dec ascii_dec a b); split; congruence.
Qed.

Lemma mem_In (x : str) (xs : list str) : mem x xs = true <-> In x xs.
Proof.
  unfold mem. rewrite existsb_exists. split.
  - intros (y & Hy & E). apply str_eqb_eq in E. now subst.
  - intros H. exists x. split; [exact H|]. now apply str_eqb_eq.
Qed.

Lemma mem_app (x : str) (xs ys : list str) :
  mem x (xs ++ ys) = mem x xs || mem x ys.
Proof. unfold mem. apply existsb_app. Qed.

Lemma len_app {A} (l1 l2 : list A) : len (l1 ++ l2) = len l1 + len l2.
Proof. unfold len. rewrite length_app. lia. Qed.

Lemma len_nonneg {A} (l : list A) : 0 <= len l.
Proof. unfold len. lia. Qed.

Lemma publish_ledger (doc : Doc) (r : Run) :
  published_docs (run_state (publish doc r))
  = published_docs (run_state r) ++ [doc_num doc].
Proof. reflexivity. Qed.

Lemma publish_cursor (doc : Doc) (r : Run) :
  next_story_num (run_state (publish doc r)) = next_story_num (run_state r) + 1.
Proof. reflexivity. Qed.

Lemma publish_stories (doc : Doc) (r : Run) :
  new_stories (publish doc r)
  = new_stories r ++ [create_story_html doc (next_story_num (run_state r))].
Proof. reflexivity. Qed.

Lemma publish_trace (doc : Doc) (r : Run) :
  run_trace (publish doc r)
  = run_trace r
    ++ [WriteStory doc (next_story_num (run_state r))
          (fst (create_story_html doc (next_story_num (run_state r))))].
Proof. reflexivity. Qed.

(** A document whose identifier is in the ledger is passed over: the
    state, the stories and the trace stay as they are. *)
Lemma for_docs_skip (limit : option Z) (doc : Doc) (rest : list Doc) (r : Run) :
  mem (doc_num doc) (published_docs (run_state r)) = true ->
  for_docs limit (doc :: rest) r = for_docs limit rest r.
Proof. intros H. simpl. now rewrite H. Qed.

Lemma for_docs_all_known (limit : option Z) (docs : list Doc) (r : Run) :
  (forall d, In d docs -> mem (doc_num d) (published_docs (run_state r)) = true) ->
  for_docs limit docs r = (r, false).
Proof.
  induction docs as [|d docs IH]; intros H; [reflexivity|].
  rewrite for_docs_skip by (apply H; now left).
  apply IH. intros d' Hd'. apply H. now right.
Qed.

(** One turn of [while True]. *)
Lemma mine_pages_unfold fuel api date limit p r :
  mine_pages (S fuel) api date limit p r =
  match api date p with
  | FetchError => Some (log (Fetch date p) r)
  | FetchOk data =>
      match results data with
      | [] => Some (log (Fetch date p) r)
      | _ :: _ =>
          let (r1, returned) :=
            for_docs limit (results data) (log (Fetch date p) r) in
          if returned then Some r1
          else if p + 1 >? get_total_pages data then Some r1
               else mine_pages fuel api date limit (p + 1) r1
      end
  end.
Proof.
  cbn [mine_pages]. destruct (api date p) as [|data]; [reflexivity|].
  destruct (results data); reflexivity.
Qed.

(* ----------------------------------------------------------------- *)
(** ** An invariant rule for the mining loop *)

Section MineInvariant.

Variables (api : Api) (date : str) (limit : option Z) (r0 : Run).
Variable Inv : Run -> Prop.

Hypothesis Inv_fetch : forall r p,
  Inv r -> open_batch limit r0 r -> Inv (log (Fetch date p) r).

Hypothesis Inv_publish : forall r p data doc,
  Inv r -> open_batch limit r0 r ->
  api date p = FetchOk data -> In doc (results data) ->
  In (Fetch date p) (run_trace r) ->
  mem (doc_num doc) (published_docs (run_state r)) = false ->
  Inv (publish doc r).

Lemma for_docs_invariant p data docs : forall r r' returned,
  api date p = FetchOk data -> incl docs (results data) ->
  In (Fetch date p) (run_trace r) -> Inv r -> open_batch limit r0 r ->
  for_docs limit docs r = (r', returned) ->
  Inv r' /\ In (Fetch date p) (run_trace r')
  /\ (returned = false -> open_batch limit r0 r').
Proof.
  induction docs as [|doc rest IH]; intros r r' returned Hp Hincl Hf Hi Ho; simpl.
  - intros [= <- <-]. auto.
  - assert (Hrest : incl rest (results data)).
    { intros d Hd. apply Hincl. now right. }
    destruct (mem (doc_num doc) (published_docs (run_state r))) eqn:Hm.
    + now apply IH.
    + assert (Hi' : Inv (publish doc r)).
      { apply (Inv_publish r p data doc); auto. apply Hincl. now left. }
      assert (Hf' : In (Fetch date p) (run_trace (publish doc r))).
      { rewrite publish_trace. apply in_or_app. now left. }
      destruct (batch_full limit (publish doc r)) eqn:Hb.
      * intros [= <- <-]. repeat split; auto. discriminate.
      * apply IH; auto. now left.
Qed.

Lemma mine_pages_invariant fuel : forall p r r',
  Inv r -> open_batch limit r0 r ->
  mine_pages fuel api date limit p r = Some r' -> Inv r'.
Proof.
  induction fuel as [|fuel IH]; intros p r r' Hi Ho; [discriminate|].
  rewrite mine_pages_unfold.
  assert (Hi1 : Inv (log (Fetch date p) r)) by now apply Inv_fetch.
  assert (Ho1 : open_batch limit r0 (log (Fetch date p) r)) by exact Ho.
  assert (Hf1 : In (Fetch date p) (run_trace (log (Fetch date p) r))).
  { simpl. apply in_or_app. right. now left. }
  destruct (api date p) as [|data] eqn:Hp; [now intros [= <-]|].
  destruct (results data) as [|d ds] eqn:Hres; [now intros [= <-]|].
  rewrite <- Hres.
  destruct (for_docs limit (results data) (log (Fetch date p) r))
    as [r1 returned] eqn:Hfd.
  destruct (for_docs_invariant p data (results data) _ _ _ Hp
              (incl_refl _) Hf1 Hi1 Ho1 Hfd)
    as (Hi2 & _ & Ho2).
  destruct returned; [now intros [= <-]|].
  destruct (p + 1 >? get_total_pages data); [now intros [= <-]|].
  apply IH; auto.
Qed.

End MineInvariant.

(* ----------------------------------------------------------------- *)
(** ** Fuel: more of it changes nothing, and a finite API needs finitely much *)

Lemma mine_pages_fuel_mono api date limit fuel : forall k p r res,
  mine_pages fuel api date limit p r = Some res ->
  mine_pages (fuel + k) api date limit p r = Some res.
Proof.
  induction fuel as [|fuel IH]; intros k p r res; [discriminate|].
  replace (S fuel + k)%nat with (S (fuel + k)) by lia.
  rewrite !mine_pages_unfold.
  destruct (api date p) as [|data]; [auto|].
  destruct (results data); [auto|].
  destruct (for_docs limit _ _) as [r1 returned].
  destruct returned; [auto|].
  destruct (p + 1 >? get_total_pages data); [auto|].
  apply IH.
Qed.

Lemma mine_pages_deterministic api date limit f1 f2 p r a b :
  mine_pages f1 api date limit p r = Some a ->
  mine_pages f2 api date limit p r = Some b ->
  a = b.
Proof.
  intros Ha Hb.
  apply (mine_pages_fuel_mono _ _ _ _ f2) in Ha.
  apply (mine_pages_fuel_mono _ _ _ _ f1) in Hb.
  rewrite Nat.add_comm in Hb. congruence.
Qed.

Lemma mine_pages_terminates api date limit bound :
  api_ends api date bound ->
  forall n p r, bound - p <= Z.of_nat n ->
  exists res, mine_pages (S n) api date limit p r = Some res.
Proof.
  intros Hend. induction n as [|n IH]; intros p r Hn;
    rewrite mine_pages_unfold.
  - assert (Hs : stops_at api date p) by (apply Hend; lia).
    unfold stops_at in Hs.
    destruct (api date p) as [|data]; [eauto|].
    destruct (results data) eqn:Hres; [eauto|].
    destruct Hs as [Hs|Hs]; [discriminate|].
    destruct (for_docs limit _ _) as [r1 returned].
    destruct returned; [eauto|].
    destruct (Z.gtb_spec (p + 1) (get_total_pages data)); [eauto|lia].
  - destruct (api date p) as [|data]; [eauto|].
    destruct (results data); [eauto|].
    destruct (for_docs limit _ _) as [r1 returned].
    destruct returned; [eauto|].
    destruct (p + 1 >? get_total_pages data); [eauto|].
    apply IH. lia.
Qed.

(* ----------------------------------------------------------------- *)
(** ** Pages a run reaches *)

Lemma reaches_run api date limit r0 p r :
  reaches api date limit r0 p r ->
  forall fuel res,
    mine_pages fuel api date limit p r = Some res ->
    exists fuel', mine_pages fuel' api date limit 1 r0 = Some res.
Proof.
  induction 1 as [|p r data r' _ IH Hp Hres Hfd Htp]; intros fuel res Hrun.
  - eauto.
  - apply (IH (S fuel)). rewrite mine_pages_unfold, Hp.
    destruct (results data); [congruence|].
    rewrite Hfd.
    destruct (Z.gtb_spec (p + 1) (get_total_pages data)); [lia|exact Hrun].
Qed.

(* ----------------------------------------------------------------- *)
(** ** The ledger only grows *)

Lemma for_docs_ledger limit docs : forall r r' returned,
  for_docs limit docs r = (r', returned) ->
  (exists added,
      published_docs (run_state r') = published_docs (run_state r) ++ added)
  /\ (returned = false ->
      forall d, In d docs -> In (doc_num d) (published_docs (run_state r')))
  /\ (returned = true -> batch_full limit r' = true).
Proof.
  induction docs as [|doc rest IH]; intros r r' returned; simpl.
  - intros [= <- <-]. split; [exists []; now rewrite app_nil_r|].
    split; [contradiction|discriminate].
  - destruct (mem (doc_num doc) (published_docs (run_state r))) eqn:Hm.
    + intros H. destruct (IH _ _ _ H) as ((added & Ha) & Hall & Hfull).
      split; [eauto|]. split; [|exact Hfull].
      intros Hr d [<-|Hd]; [|auto].
      rewrite Ha. apply in_or_app. left. now apply mem_In.
    + destruct (batch_full limit (publish doc r)) eqn:Hb.
      * intros [= <- <-]. split; [eexists; apply publish_ledger|].
        split; [discriminate|auto].
      * intros H. destruct (IH _ _ _ H) as ((added & Ha) & Hall & Hfull).
        rewrite publish_ledger in Ha.
        split; [exists ([doc_num doc] ++ added); now rewrite app_assoc|].
        split; [|exact Hfull].
        intros Hr d [<-|Hd]; [|auto].
        rewrite Ha. apply in_or_app. left. apply in_or_app. right. now left.
Qed.

Lemma mine_pages_ledger api date limit fuel p r r' :
  mine_pages fuel api date limit p r = Some r' ->
  exists added,
    published_docs (run_state r') = published_docs (run_state r) ++ added.
Proof.
  apply (mine_pages_invariant api date limit r
           (fun x => exists added,
                published_docs (run_state x)
                = published_docs (run_state r) ++ added)).
  - intros x q Hx _. exact Hx.
  - intros x q data doc (added & Ha) _ _ _ _ _.
    exists (added ++ [doc_num doc]).
    rewrite publish_ledger, Ha. now rewrite app_assoc.
  - exists []. now rewrite app_nil_r.
  - now right.
Qed.

(** The identifiers a run adds to the ledger come from the documents of
    the pages it fetched. *)
Lemma mine_pages_ledger_from_pages api date limit fuel p r r' :
  mine_pages fuel api date limit p r = Some r' ->
  exists added,
    published_docs (run_state r') = published_docs (run_state r) ++ added
    /\ forall id, In id added ->
         exists q data doc,
           In (Fetch date q) (run_trace r') /\ api date q = FetchOk data
           /\ In doc (results data) /\ doc_num doc = id.
Proof.
  apply (mine_pages_invariant api date limit r
           (fun x => exists added,
                published_docs (run_state x)
                = published_docs (run_state r) ++ added
                /\ forall id, In id added ->
                     exists q data doc,
                       In (Fetch date q) (run_trace x) /\ api date q = FetchOk data
                       /\ In doc (results data) /\ doc_num doc = id)).
  - intros x q (added & Ha & Hfrom) _. exists added. split; [exact Ha|].
    intros id Hid. destruct (Hfrom id Hid) as (q' & data & doc & H1 & H2).
    exists q', data, doc. split; [|exact H2].
    simpl. apply in_or_app. now left.
  - intros x q data doc (added & Ha & Hfrom) _ Hq Hdoc Hfetch _.
    exists (added ++ [doc_num doc]). split.
    + rewrite publish_ledger, Ha. now rewrite app_assoc.
    + intros id Hid. rewrite publish_trace.
      apply in_app_or in Hid as [Hid|[<-|[]]].
      * destruct (Hfrom id Hid) as (q' & data' & doc' & H1 & H2).
        exists q', data', doc'. split; [|exact H2]. apply in_or_app. now left.
      * exists q, data, doc. split; [apply in_or_app; now left|auto].
  - exists []. split; [now rewrite app_nil_r|contradiction].
  - now right.
Qed.

Lemma mined_pages fuel api date state res :
  mined fuel api date state res ->
  exists limit, mine_pages fuel api date limit 1 (start state) = Some res.
Proof. intros [[k H]|H]; eauto. Qed.

(** C7: over a mining run of either program the ledger is the old ledger
    followed by what the run added, so it is no shorter and keeps every old
    element, and every added identifier is the [document_number] (read with
    its default) of a document on a page the run fetched. *)
Theorem ledger_append_only fuel api date state res :
  mined fuel api date state res ->
  exists added,
    published_docs (run_state res) = published_docs state ++ added
    /\ (List.length (published_docs state)
        <= List.length (published_docs (run_state res)))%nat
    /\ (forall id, In id (published_docs state) ->
                   In id (published_docs (run_state res)))
    /\ (forall id, In id added ->
          exists p data doc,
            In (Fetch date p) (run_trace res) /\ api date p = FetchOk data
            /\ In doc (results data) /\ doc_num doc = id).
Proof.
  intros Hm. destruct (mined_pages _ _ _ _ _ Hm) as [limit H].
  destruct (mine_pages_ledger_from_pages _ _ _ _ _ _ _ H)
    as (added & Ha & Hfrom).
  simpl in Ha. exists added. split; [exact Ha|]. rewrite Ha.
  split; [rewrite length_app; lia|].
  split; [|exact Hfrom].
  intros id Hid. apply in_or_app. now left.
Qed.

Lemma ledger_append_only_witness :
  exists res,
    mined 1 two_docs_api sample_date seeded_state res
    /\ published_docs (run_state res) = [lit "2024-01"; lit "2024-02"]
    /\ exists added,
         published_docs (run_state res) = published_docs seeded_state ++ added.
Proof.
  assert (E : exists res,
             Daily.mine_date 1 two_docs_api sample_date seeded_state 50 = Some res
             /\ published_docs (run_state res) = [lit "2024-01"; lit "2024-02"]).
  { eexists. split; vm_compute; reflexivity. }
  destruct E as (res & Hrun & Hledger).
  assert (Hm : mined 1 two_docs_api sample_date seeded_state res).
  { left. now exists 50. }
  exists res. split; [exact Hm|]. split; [exact Hledger|].
  destruct (ledger_append_only _ _ _ _ _ Hm) as (added & Ha & _).
  now exists added.
Defined.

(* ----------------------------------------------------------------- *)
(** ** The batch limit *)

Lemma batch_full_spec (k : Z) (r : Run) :
  batch_full (Some k) r = true <-> k <= len (new_stories r).
Proof. simpl. rewrite Z.geb_le. reflexivity. Qed.

Lemma mine_pages_batch_bound api date k fuel state res :
  mine_pages fuel api date (Some k) 1 (start state) = Some res ->
  len (new_stories res) <= Z.max k 1.
Proof.
  apply (mine_pages_invariant api date (Some k) (start state)
           (fun x => len (new_stories x) <= Z.max k 1)).
  - intros x q Hx _. exact Hx.
  - intros x q data doc Hx Ho _ _ _ _.
    rewrite publish_stories, len_app. change (len [_]) with 1.
    destruct Ho as [Ho|Ho].
    + assert (~ k <= len (new_stories x)).
      { rewrite <- batch_full_spec. congruence. }
      lia.
    + rewrite Ho. simpl. change (len []) with 0. lia.
  - simpl. change (len []) with 0. lia.
  - now right.
Qed.

(** A run whose batch is full ended with the publication that filled it. *)
Lemma mine_pages_full_ends_on_write api date k fuel state res :
  mine_pages fuel api date (Some k) 1 (start state) = Some res ->
  new_stories res <> [] -> k <= len (new_stories res) ->
  exists tr doc n f, run_trace res = tr ++ [WriteStory doc n f].
Proof.
  intros H. rewrite <- batch_full_spec. revert H.
  apply (mine_pages_invariant api date (Some k) (start state)
           (fun x => new_stories x <> [] -> batch_full (Some k) x = true ->
                     exists tr doc n f, run_trace x = tr ++ [WriteStory doc n f])).
  - intros x q _ Ho Hne Hfull. exfalso.
    destruct Ho as [Ho|Ho]; [change (batch_full (Some k) x = true) in Hfull;
                              congruence|].
    apply Hne. exact Ho.
  - intros x q data doc _ _ _ _ _ _ _ _. rewrite publish_trace. eauto.
  - intros Hne. now contradiction Hne.
  - now right.
Qed.

(** C3 (as the code has it): [mine_date] with the batch size [k] returns
    at most [max k 1] new stories, however many unpublished documents the
    pages hold: the test comes after a story is appended, so a limit below
    one still lets one story through.  A run that filled its batch ended
    with the publication that filled it.  And the call does return, for
    every API whose pages end. *)
Theorem mine_date_batch_limit api date state k :
  (forall fuel res,
      Daily.mine_date fuel api date state k = Some res ->
      len (new_stories res) <= Z.max k 1
      /\ (new_stories res <> [] -> k <= len (new_stories res) ->
          exists tr doc n f, run_trace res = tr ++ [WriteStory doc n f]))
  /\ (forall bound, api_ends api date bound ->
      exists fuel res, Daily.mine_date fuel api date state k = Some res).
Proof.
  split.
  - intros fuel res H. split.
    + exact (mine_pages_batch_bound _ _ _ _ _ _ H).
    + exact (mine_pages_full_ends_on_write _ _ _ _ _ _ H).
  - intros bound Hend.
    destruct (mine_pages_terminates api date (Some k) bound Hend
                (Z.to_nat bound) 1 (start state)) as [res H]; [lia|].
    exists (S (Z.to_nat bound)), res. exact H.
Qed.

(** With the batch size 0 and one unpublished document upstream,
    [mine_date] returns one story: more than the limit. *)
Lemma mine_date_batch_size_zero_returns_one :
  ~ (forall fuel api date state k res,
        Daily.mine_date fuel api date state k = Some res ->
        len (new_stories res) <= k).
Proof.
  intros H.
  assert (E : exists res,
             Daily.mine_date 1 two_docs_api sample_date fresh_state 0 = Some res
             /\ len (new_stories res) = 1).
  { eexists. split; vm_compute; reflexivity. }
  destruct E as (res & Hrun & Hlen).
  specialize (H _ _ _ _ _ _ Hrun). lia.
Qed.

Lemma mine_date_batch_limit_witness :
  api_ends two_docs_api sample_date 1
  /\ exists fuel res,
       Daily.mine_date fuel two_docs_api sample_date fresh_state 1 = Some res
       /\ len (new_stories res) <= Z.max 1 1.
Proof.
  assert (Hend : api_ends two_docs_api sample_date 1).
  { intros p Hp. unfold stops_at, two_docs_api.
    destruct (p =? 1); [right; unfold get_total_pages; simpl; lia|now left]. }
  split; [exact Hend|].
  destruct (mine_date_batch_limit two_docs_api sample_date fresh_state 1)
    as [Hbound Hret].
  destruct (Hret 1 Hend) as (fuel & res & Hrun).
  exists fuel, res. split; [exact Hrun|].
  exact (proj1 (Hbound fuel res Hrun)).
Defined.

(* ----------------------------------------------------------------- *)
(** ** A failing fetch *)

Lemma mine_pages_fetch_error api date limit r0 p r :
  reaches api date limit r0 p r ->
  api date p = FetchError ->
  (exists fuel,
      mine_pages fuel api date limit 1 r0 = Some (log (Fetch date p) r))
  /\ (forall fuel res,
        mine_pages fuel api date limit 1 r0 = Some res ->
        res = log (Fetch date p) r).
Proof.
  intros Hreach Herr.
  assert (H1 : mine_pages 1 api date limit p r = Some (log (Fetch date p) r)).
  { rewrite mine_pages_unfold, Herr. reflexivity. }
  destruct (reaches_run _ _ _ _ _ _ Hreach _ _ H1) as [fuel Hfuel].
  split; [eauto|].
  intros fuel' res Hres.
  exact (mine_pages_deterministic _ _ _ _ _ _ _ _ _ Hres Hfuel).
Qed.

Lemma for_docs_fetches limit date docs : forall r r' returned,
  for_docs limit docs r = (r', returned) ->
  forall q, In (Fetch date q) (run_trace r') -> In (Fetch date q) (run_trace r).
Proof.
  induction docs as [|doc rest IH]; intros r r' returned; simpl.
  - now intros [= <- <-].
  - assert (Hpub : forall q, In (Fetch date q) (run_trace (publish doc r)) ->
                             In (Fetch date q) (run_trace r)).
    { intros q Hq. rewrite publish_trace in Hq.
      apply in_app_or in Hq as [Hq|[Hq|[]]]; [exact Hq|discriminate]. }
    destruct (mem (doc_num doc) (published_docs (run_state r))); [apply IH|].
    destruct (batch_full limit (publish doc r)).
    + intros [= <- <-]. exact Hpub.
    + intros H q Hq. apply Hpub. exact (IH _ _ _ H q Hq).
Qed.

(** Every page a completed call fetched is a page its loop came to. *)
Lemma fetched_reaches api date limit r0 fuel : forall p r res,
  reaches api date limit r0 p r ->
  mine_pages fuel api date limit p r = Some res ->
  forall q, In (Fetch date q) (run_trace res) ->
  In (Fetch date q) (run_trace r)
  \/ exists rq, reaches api date limit r0 q rq.
Proof.
  induction fuel as [|fuel IH]; intros p r res Hreach; [discriminate|].
  rewrite mine_pages_unfold.
  assert (Hlog : forall q, In (Fetch date q) (run_trace (log (Fetch date p) r)) ->
                   In (Fetch date q) (run_trace r)
                   \/ exists rq, reaches api date limit r0 q rq).
  { intros q Hq. simpl in Hq.
    apply in_app_or in Hq as [Hq|[Hq|[]]]; [now left|].
    injection Hq as <-. right. now exists r. }
  destruct (api date p) as [|data] eqn:Hp; [intros [= <-]; exact Hlog|].
  destruct (results data) as [|d ds] eqn:Hres; [intros [= <-]; exact Hlog|].
  assert (Hne : results data <> []) by now rewrite Hres.
  rewrite <- Hres. clear Hres d ds.
  destruct (for_docs limit (results data) (log (Fetch date p) r))
    as [r1 returned] eqn:Hfd.
  pose proof (for_docs_fetches _ date _ _ _ _ Hfd) as Hsame.
  destruct returned; [intros [= <-] q Hq; exact (Hlog q (Hsame q Hq))|].
  destruct (Z.gtb_spec (p + 1) (get_total_pages data)) as [Hgt|Hle];
    [intros [= <-] q Hq; exact (Hlog q (Hsame q Hq))|].
  intros Hrun q Hq.
  assert (Hnext : reaches api date limit r0 (p + 1) r1)
    by (eapply reaches_next; eauto).
  destruct (IH _ _ _ Hnext Hrun q Hq) as [Hin|Hex]; [|now right].
  exact (Hlog q (Hsame q Hin)).
Qed.

(** C4: when a mining call fetches page [p] and the fetch raises, the call
    returns normally and what it returns is the run [r] with which the loop
    came to page [p], with the failed fetch as the last event: the stories
    and the state are those accumulated over the pages before [p], and no
    page is fetched after it.  This holds with a batch limit ([mine_date])
    and without one ([mine_date_all]); and a loop that comes to a page whose
    fetch raises does make the call return. *)
Theorem fetch_error_returns_partial_batch api date state p :
  api date p = FetchError ->
  (forall fuel res,
      mined fuel api date state res ->
      In (Fetch date p) (run_trace res) ->
      exists limit r,
        reaches api date limit (start state) p r
        /\ new_stories res = new_stories r
        /\ run_state res = run_state r
        /\ run_trace res = run_trace r ++ [Fetch date p])
  /\ (forall k r,
      reaches api date (Some k) (start state) p r ->
      (exists fuel res, Daily.mine_date fuel api date state k = Some res)
      /\ (forall fuel res,
            Daily.mine_date fuel api date state k = Some res ->
            new_stories res = new_stories r
            /\ run_state res = run_state r
            /\ run_trace res = run_trace r ++ [Fetch date p]))
  /\ (forall r,
      reaches api date None (start state) p r ->
      (exists fuel res, Historical.mine_date_all fuel api date state = Some res)
      /\ (forall fuel res,
            Historical.mine_date_all fuel api date state = Some res ->
            new_stories res = new_stories r
            /\ run_state res = run_state r
            /\ run_trace res = run_trace r ++ [Fetch date p])).
Proof.
  intros Herr. split; [|split].
  - intros fuel res Hm Hin.
    destruct (mined_pages _ _ _ _ _ Hm) as [limit Hrun].
    destruct (fetched_reaches _ _ _ _ _ _ _ _
                (reaches_first api date limit (start state)) Hrun p Hin)
      as [[]|[r Hreach]].
    exists limit, r. split; [exact Hreach|].
    destruct (mine_pages_fetch_error _ _ _ _ _ _ Hreach Herr) as [_ H2].
    rewrite (H2 _ _ Hrun). auto.
  - intros k r Hreach.
    destruct (mine_pages_fetch_error _ _ _ _ _ _ Hreach Herr) as [[fuel H1] H2].
    split; [eauto|].
    intros fuel' res Hres. rewrite (H2 _ _ Hres). auto.
  - intros r Hreach.
    destruct (mine_pages_fetch_error _ _ _ _ _ _ Hreach Herr) as [[fuel H1] H2].
    split; [eauto|].
    intros fuel' res Hres. rewrite (H2 _ _ Hres). auto.
Qed.

Lemma fetch_error_returns_partial_batch_witness :
  failing_api sample_date 2 = FetchError
  /\ exists fuel res,
       Daily.mine_date fuel failing_api sample_date fresh_state 50 = Some res
       /\ List.length (new_stories res) = 2%nat
       /\ last (run_trace res) (Fetch [] 0) = Fetch sample_date 2.
Proof.
  split; [reflexivity|].
  assert (Hreach : exists r,
             reaches failing_api sample_date (Some 50) (start fresh_state) 2 r
             /\ List.length (new_stories r) = 2%nat).
  { eexists. split.
    - change 2 with (1 + 1).
      eapply (reaches_next failing_api sample_date (Some 50)
                (start fresh_state) 1);
        [apply reaches_first|reflexivity|discriminate
        |vm_compute; reflexivity|vm_compute; discriminate].
    - reflexivity. }
  destruct Hreach as (r & Hreach & Hlen).
  destruct (proj1 (proj2 (fetch_error_returns_partial_batch failing_api
                            sample_date fresh_state 2 eq_refl)) 50 r Hreach)
    as [(fuel & res & Hrun) Hall].
  exists fuel, res. split; [exact Hrun|].
  destruct (Hall fuel res Hrun) as (E1 & _ & E3).
  rewrite E1, E3, last_last. split; [exact Hlen|reflexivity].
Defined.

(* ----------------------------------------------------------------- *)
(** ** Mining a date again *)

Lemma mine_pages_rerun api date limit fuel : forall p r r1 r2,
  mine_pages fuel api date limit p r = Some r1 ->
  batch_full limit r1 = false ->
  incl (published_docs (run_state r1)) (published_docs (run_state r2)) ->
  exists evs,
    mine_pages fuel api date limit p r2
    = Some {| run_state := run_state r2;
              new_stories := new_stories r2;
              run_trace := run_trace r2 ++ evs |}
    /\ Forall (is_fetch date) evs.
Proof.
  induction fuel as [|fuel IH]; intros p r r1 r2; [discriminate|].
  rewrite !mine_pages_unfold.
  assert (Hone : Forall (is_fetch date) [Fetch date p]).
  { constructor; [now exists p|constructor]. }
  destruct (api date p) as [|data]; [intros; exists [Fetch date p]; auto|].
  destruct (results data) as [|d ds] eqn:Hres;
    [intros; exists [Fetch date p]; auto|].
  rewrite <- Hres. clear Hres d ds.
  destruct (for_docs limit (results data) (log (Fetch date p) r))
    as [ra returned] eqn:Hfd.
  destruct (for_docs_ledger _ _ _ _ _ Hfd) as (_ & Hall & Hfull).
  intros Hrun Hopen Hincl.
  assert (Hret : returned = false).
  { destruct returned; [|reflexivity].
    injection Hrun as <-. rewrite Hfull in Hopen by reflexivity.
    discriminate. }
  subst returned. specialize (Hall eq_refl).
  assert (Hra : incl (published_docs (run_state ra))
                     (published_docs (run_state r1))).
  { destruct (p + 1 >? get_total_pages data).
    - injection Hrun as <-. apply incl_refl.
    - destruct (mine_pages_ledger _ _ _ _ _ _ _ Hrun) as [added ->].
      apply incl_appl, incl_refl. }
  rewrite (for_docs_all_known limit (results data) (log (Fetch date p) r2)).
  2:{ intros doc Hdoc. apply mem_In. simpl. apply Hincl, Hra, Hall, Hdoc. }
  destruct (p + 1 >? get_total_pages data).
  - exists [Fetch date p]. auto.
  - destruct (IH _ _ _ (log (Fetch date p) r2) Hrun Hopen Hincl)
      as (evs & Hrun2 & Hevs).
    exists (Fetch date p :: evs). split.
    + rewrite Hrun2. simpl. now rewrite <- app_assoc.
    + constructor; [now exists p|exact Hevs].
Qed.

(** A run publishes only documents whose identifier the ledger it started
    from does not hold. *)
Lemma mine_pages_writes_fresh api date limit fuel state res :
  mine_pages fuel api date limit 1 (start state) = Some res ->
  forall doc n f,
    In (WriteStory doc n f) (run_trace res) ->
    ~ In (doc_num doc) (published_docs state).
Proof.
  intros H.
  apply (mine_pages_invariant api date limit (start state)
           (fun x => incl (published_docs state) (published_docs (run_state x))
                     /\ forall doc n f,
                          In (WriteStory doc n f) (run_trace x) ->
                          ~ In (doc_num doc) (published_docs state))) in H.
  - exact (proj2 H).
  - intros x q (Hincl & Hw) _. split; [exact Hincl|].
    intros doc n f Hin. simpl in Hin.
    apply in_app_or in Hin as [Hin|[Hin|[]]]; [eauto|discriminate].
  - intros x q data doc (Hincl & Hw) _ _ _ _ Hm. split.
    + rewrite publish_ledger. now apply incl_appl.
    + intros doc' n f Hin. rewrite publish_trace in Hin.
      apply in_app_or in Hin as [Hin|[Hin|[]]]; [eauto|].
      injection Hin as <- _ _. intros Hold.
      apply Hincl, mem_In in Hold. congruence.
  - split; [apply incl_refl|contradiction].
  - now right.
Qed.

(** C1 (as the code has it): mining a date again from the state the first
    call left, against the same API, publishes nothing new - the state
    comes back unchanged, no story is returned and the trace holds fetches
    only - for [mine_date_all] always and for [mine_date] whenever the first
    call ended below its batch limit.  In every case a document whose
    identifier the first call left in the ledger is not published by the
    second one. *)
Theorem remine_same_date_publishes_nothing fuel api date state :
  (forall r1,
      Historical.mine_date_all fuel api date state = Some r1 ->
      exists tr,
        Historical.mine_date_all fuel api date (run_state r1)
        = Some {| run_state := run_state r1; new_stories := []; run_trace := tr |}
        /\ Forall (is_fetch date) tr)
  /\ (forall k r1,
      Daily.mine_date fuel api date state k = Some r1 ->
      len (new_stories r1) < k ->
      exists tr,
        Daily.mine_date fuel api date (run_state r1) k
        = Some {| run_state := run_state r1; new_stories := []; run_trace := tr |}
        /\ Forall (is_fetch date) tr)
  /\ (forall r1,
      mined fuel api date state r1 ->
      forall fuel2 r2,
        mined fuel2 api date (run_state r1) r2 ->
        forall doc n f,
          In (WriteStory doc n f) (run_trace r2) ->
          ~ In (doc_num doc) (published_docs (run_state r1))).
Proof.
  split; [|split].
  - intros r1 H1.
    destruct (mine_pages_rerun _ _ _ _ _ _ _ (start (run_state r1)) H1
                eq_refl (incl_refl _)) as (evs & H2 & Hevs).
    exists evs. split; [exact H2|exact Hevs].
  - intros k r1 H1 Hlt.
    assert (Hopen : batch_full (Some k) r1 = false).
    { destruct (batch_full (Some k) r1) eqn:E; [|reflexivity].
      apply batch_full_spec in E. lia. }
    destruct (mine_pages_rerun _ _ _ _ _ _ _ (start (run_state r1)) H1
                Hopen (incl_refl _)) as (evs & H2 & Hevs).
    exists evs. split; [exact H2|exact Hevs].
  - intros r1 _ fuel2 r2 H2.
    destruct (mined_pages _ _ _ _ _ H2) as [limit H].
    exact (mine_pages_writes_fresh _ _ _ _ _ _ H).
Qed.

(** With the batch size 1 and two unpublished documents on the page, the
    first call publishes the first document and the second call, from the
    state the first one left, publishes the other. *)
Lemma remine_after_full_batch_publishes :
  ~ (forall fuel api date state k r1 r2,
        Daily.mine_date fuel api date state k = Some r1 ->
        Daily.mine_date fuel api date (run_state r1) k = Some r2 ->
        new_stories r2 = []).
Proof.
  intros H.
  assert (E : exists r1 r2,
             Daily.mine_date 1 two_docs_api sample_date fresh_state 1 = Some r1
             /\ Daily.mine_date 1 two_docs_api sample_date (run_state r1) 1
                = Some r2
             /\ List.length (new_stories r2) = 1%nat).
  { do 2 eexists. split; [vm_compute; reflexivity|].
    split; vm_compute; reflexivity. }
  destruct E as (r1 & r2 & H1 & H2 & Hlen).
  rewrite (H _ _ _ _ _ _ _ H1 H2) in Hlen. discriminate.
Qed.

Lemma remine_same_date_publishes_nothing_witness :
  exists r1 tr,
    Daily.mine_date 1 two_docs_api sample_date fresh_state 50 = Some r1
    /\ List.length (new_stories r1) = 2%nat
    /\ Daily.mine_date 1 two_docs_api sample_date (run_state r1) 50
       = Some {| run_state := run_state r1; new_stories := []; run_trace := tr |}.
Proof.
  assert (E : exists r1,
             Daily.mine_date 1 two_docs_api sample_date fresh_state 50 = Some r1
             /\ List.length (new_stories r1) = 2%nat).
  { eexists. split; vm_compute; reflexivity. }
  destruct E as (r1 & H1 & Hlen).
  destruct (proj1 (proj2 (remine_same_date_publishes_nothing
                            1 two_docs_api sample_date fresh_state))
              50 r1 H1) as (tr & H2 & _).
  { unfold len. rewrite Hlen. reflexivity. }
  exists r1, tr. auto.
Defined.

(* ----------------------------------------------------------------- *)
(** ** Documents without a [document_number] *)

Lemma lacks_number_doc_num (doc : Doc) :
  lacks_number doc = true -> doc_num doc = [].
Proof.
  unfold lacks_number, doc_num. destruct (document_number doc);
    [discriminate|reflexivity].
Qed.

Lemma mine_pages_one_unnumbered api date limit fuel state res :
  mine_pages fuel api date limit 1 (start state) = Some res ->
  (List.length (unnumbered_writes (run_trace res)) <= 1)%nat.
Proof.
  intros H.
  apply (mine_pages_invariant api date limit (start state)
           (fun x => (In [] (published_docs (run_state x))
                      /\ (List.length (unnumbered_writes (run_trace x)) <= 1)%nat)
                     \/ unnumbered_writes (run_trace x) = [])) in H.
  - destruct H as [[_ H]|H]; [exact H|]. rewrite H. simpl. lia.
  - intros x q Hx _. unfold unnumbered_writes in *. simpl.
    rewrite filter_app. simpl. now rewrite app_nil_r.
  - intros x q data doc Hx _ _ _ _ Hm.
    unfold unnumbered_writes in *.
    rewrite publish_trace, publish_ledger, filter_app. simpl.
    destruct (lacks_number doc) eqn:Hl.
    + apply lacks_number_doc_num in Hl. rewrite Hl in *.
      destruct Hx as [[Hin _]|Hx].
      * apply mem_In in Hin. congruence.
      * left. rewrite Hx. split; [|simpl; lia].
        apply in_or_app. right. now left.
    + rewrite app_nil_r. destruct Hx as [[Hin Hx]|Hx]; [left|now right].
      split; [|exact Hx]. apply in_or_app. now left.
  - now right.
  - now right.
Qed.

(** C9: a document without a [document_number] goes by the empty string.
    While the ledger lacks the empty string such a document is published
    and the empty string joins the ledger; a run from a ledger that holds
    the empty string publishes no such document and leaves the empty string
    in the ledger for the runs after it; so no run publishes more than one
    of them. *)
Theorem unnumbered_documents_share_one_ledger_entry :
  (forall limit doc rest r,
      document_number doc = None ->
      ~ In [] (published_docs (run_state r)) ->
      for_docs limit (doc :: rest) r
      = (if batch_full limit (publish doc r) then (publish doc r, true)
         else for_docs limit rest (publish doc r))
      /\ published_docs (run_state (publish doc r))
         = published_docs (run_state r) ++ [[]]
      /\ new_stories (publish doc r)
         = new_stories r ++ [create_story_html doc (next_story_num (run_state r))])
  /\ (forall fuel api date state res,
      mined fuel api date state res ->
      In [] (published_docs state) ->
      In [] (published_docs (run_state res))
      /\ forall doc n f,
           In (WriteStory doc n f) (run_trace res) ->
           document_number doc <> None)
  /\ (forall fuel api date state res,
      mined fuel api date state res ->
      (List.length (unnumbered_writes (run_trace res)) <= 1)%nat).
Proof.
  split; [|split].
  - intros limit doc rest r Hnone Hfresh.
    assert (E : doc_num doc = []) by (unfold doc_num; now rewrite Hnone).
    split; [|split].
    + simpl. rewrite E.
      destruct (mem [] (published_docs (run_state r))) eqn:Hm;
        [apply mem_In in Hm; contradiction|reflexivity].
    + rewrite publish_ledger, E. reflexivity.
    + apply publish_stories.
  - intros fuel api date state res Hm Hin.
    destruct (mined_pages _ _ _ _ _ Hm) as [limit H].
    split.
    { destruct (mine_pages_ledger _ _ _ _ _ _ _ H) as [added ->].
      apply in_or_app. now left. }
    intros doc n f Hw Hnone.
    apply (mine_pages_writes_fresh _ _ _ _ _ _ H doc n f Hw).
    unfold doc_num. now rewrite Hnone.
  - intros fuel api date state res Hm.
    destruct (mined_pages _ _ _ _ _ Hm) as [limit H].
    exact (mine_pages_one_unnumbered _ _ _ _ _ _ H).
Qed.

Lemma unnumbered_documents_share_one_ledger_entry_witness :
  exists res,
    Daily.mine_date 1 unnumbered_api sample_date fresh_state 50 = Some res
    /\ List.length (new_stories res) = 2%nat
    /\ published_docs (run_state res) = [[]; lit "2024-01"]
    /\ (List.length (unnumbered_writes (run_trace res)) <= 1)%nat.
Proof.
  assert (E : exists res,
             Daily.mine_date 1 unnumbered_api sample_date fresh_state 50
             = Some res
             /\ List.length (new_stories res) = 2%nat
             /\ published_docs (run_state res) = [[]; lit "2024-01"]).
  { eexists. split; [vm_compute; reflexivity|]. split; reflexivity. }
  destruct E as (res & Hrun & Hlen & Hledger).
  exists res. repeat split; auto.
  apply (proj2 (proj2 unnumbered_documents_share_one_ledger_entry)
           1%nat unnumbered_api sample_date fresh_state res).
  left. now exists 50.
Defined.

(* ----------------------------------------------------------------- *)
(** ** The persisted cursor *)

Lemma cursor_overwritten (w1 w2 : World) :
  same_but_cursor w1 w2 ->
  set_next_story_num (load_state (state_file w1)) (get_next_story_num (listdir w1))
  = set_next_story_num (load_state (state_file w2)) (get_next_story_num (listdir w2)).
Proof.
  intros (Hs & Hl & _). rewrite Hl. unfold set_next_story_num. f_equal.
  destruct (state_file w1), (state_file w2); simpl in *; congruence.
Qed.

(** C10: two runs of either [main] from worlds that differ only in the
    persisted [next_story_num] return the same number and leave the same
    trace - the same stories written under the same sequence numbers and
    file names, the same index, the same saved states (and so the same
    final [next_story_num]) and the same push messages. *)
Theorem persisted_cursor_never_observed
    fuel api today clock days_back batch_commit_size (w1 w2 : World) :
  same_but_cursor w1 w2 ->
  Daily.main fuel api today w1 = Daily.main fuel api today w2
  /\ Historical.main fuel api clock w1 days_back batch_commit_size
     = Historical.main fuel api clock w2 days_back batch_commit_size.
Proof.
  intros H. pose proof (cursor_overwritten _ _ H) as E.
  destruct H as (_ & _ & Hi).
  unfold Daily.main, Historical.main. rewrite E, Hi. split; reflexivity.
Qed.

Lemma persisted_cursor_never_observed_witness :
  same_but_cursor (sample_world 547) (sample_world 3)
  /\ Daily.main 1 two_docs_api sample_date (sample_world 547)
     = Daily.main 1 two_docs_api sample_date (sample_world 3).
Proof.
  assert (H : same_but_cursor (sample_world 547) (sample_world 3)).
  { repeat split. }
  split; [exact H|].
  exact (proj1 (persisted_cursor_never_observed
                  1 two_docs_api sample_date (fun _ => sample_date) 0 100
                  _ _ H)).
Defined.

Example main_numbers_from_directory :
  option_map fst (Daily.main 1 two_docs_api sample_date (sample_world 547)) = Some 1
  /\ exists doc f tr,
       option_map snd (Daily.main 1 two_docs_api sample_date (sample_world 547))
       = Some (Fetch sample_date 1 :: WriteStory doc 13 f :: tr)
       /\ f = lit "story-013-fr-notice-of-meeting-2.html".
Proof.
  split; [vm_compute; reflexivity|].
  do 3 eexists. split; vm_compute; reflexivity.
Qed.

(* ----------------------------------------------------------------- *)
(** ** Checkpoints of the historical run *)

Lemma mine_pages_no_checkpoint api date limit fuel state res :
  mine_pages fuel api date limit 1 (start state) = Some res ->
  forall e, In e (run_trace res) -> ~ is_checkpoint e.
Proof.
  apply (mine_pages_invariant api date limit (start state)
           (fun x => forall e, In e (run_trace x) -> ~ is_checkpoint e)).
  - intros x q Hx _ e He. simpl in He.
    apply in_app_or in He as [He|[<-|[]]]; [auto|simpl; tauto].
  - intros x q data doc Hx _ _ _ _ _ e He. rewrite publish_trace in He.
    apply in_app_or in He as [He|[<-|[]]]; [auto|simpl; tauto].
  - contradiction.
  - now right.
Qed.

(** C6: three days back, forty new documents on each day and a checkpoint
    at 100.  After the first day 40 stories are held and after the second
    80, with nothing saved or pushed; the third day brings the batch to 120,
    the state is saved and one push announces 120 documents, and the batch
    is emptied; the final commit after the loop then has nothing to do, so
    the run ends on that one checkpoint and returns 120. *)
Theorem three_days_of_forty_one_checkpoint fuel api clock w r1 r2 r3 :
  let state0 :=
    set_next_story_num (load_state (state_file w))
                       (get_next_story_num (listdir w)) in
  let l0 := {| Historical.state := state0; Historical.total_new := 0;
               Historical.batch_stories := []; Historical.trace := [] |} in
  Historical.mine_date_all fuel api (clock 0%nat) state0 = Some r1 ->
  len (new_stories r1) = 40 ->
  Historical.mine_date_all fuel api (clock 1%nat) (run_state r1) = Some r2 ->
  len (new_stories r2) = 40 ->
  Historical.mine_date_all fuel api (clock 2%nat) (run_state r2) = Some r3 ->
  len (new_stories r3) = 40 ->
  Historical.days fuel api clock 100 (seq 0 1) l0
  = Some {| Historical.state := run_state r1;
            Historical.total_new := 40;
            Historical.batch_stories := new_stories r1;
            Historical.trace := run_trace r1 |}
  /\ Historical.days fuel api clock 100 (seq 0 2) l0
     = Some {| Historical.state := run_state r2;
               Historical.total_new := 80;
               Historical.batch_stories := new_stories r1 ++ new_stories r2;
               Historical.trace := run_trace r1 ++ run_trace r2 |}
  /\ Historical.days fuel api clock 100 (seq 0 3) l0
     = Some {| Historical.state := run_state r3;
               Historical.total_new := 120;
               Historical.batch_stories := [];
               Historical.trace :=
                 (run_trace r1 ++ run_trace r2 ++ run_trace r3)
                 ++ [SaveState (run_state r3);
                     GitPush (Historical.push_message 120)] |}
  /\ Historical.main fuel api clock w 3 100
     = Some (120,
             (run_trace r1 ++ run_trace r2 ++ run_trace r3)
             ++ [SaveState (run_state r3);
                 GitPush (Historical.push_message 120)])
  /\ (forall e, In e (run_trace r1 ++ run_trace r2 ++ run_trace r3) ->
                ~ is_checkpoint e).
Proof.
  intros state0 l0 H1 L1 H2 L2 H3 L3.
  assert (D1 : Historical.day fuel api clock 100 0 l0
               = Some {| Historical.state := run_state r1;
                         Historical.total_new := 40;
                         Historical.batch_stories := new_stories r1;
                         Historical.trace := run_trace r1 |}).
  { unfold Historical.day. simpl Historical.state. rewrite H1.
    simpl. rewrite L1. reflexivity. }
  assert (D2 : Historical.day fuel api clock 100 1
                 {| Historical.state := run_state r1;
                    Historical.total_new := 40;
                    Historical.batch_stories := new_stories r1;
                    Historical.trace := run_trace r1 |}
               = Some {| Historical.state := run_state r2;
                         Historical.total_new := 80;
                         Historical.batch_stories := new_stories r1 ++ new_stories r2;
                         Historical.trace := run_trace r1 ++ run_trace r2 |}).
  { unfold Historical.day. simpl Historical.state. rewrite H2.
    simpl. rewrite len_app, L1, L2. reflexivity. }
  assert (D3 : Historical.day fuel api clock 100 2
                 {| Historical.state := run_state r2;
                    Historical.total_new := 80;
                    Historical.batch_stories := new_stories r1 ++ new_stories r2;
                    Historical.trace := run_trace r1 ++ run_trace r2 |}
               = Some {| Historical.state := run_state r3;
                         Historical.total_new := 120;
                         Historical.batch_stories := [];
                         Historical.trace :=
                           (run_trace r1 ++ run_trace r2 ++ run_trace r3)
                           ++ [SaveState (run_state r3);
                               GitPush (Historical.push_message 120)] |}).
  { unfold Historical.day. simpl Historical.state. rewrite H3.
    simpl. rewrite !len_app, L1, L2, L3. simpl.
    now rewrite <- !app_assoc. }
  assert (E3 : Historical.days fuel api clock 100 (seq 0 3) l0
               = Some {| Historical.state := run_state r3;
                         Historical.total_new := 120;
                         Historical.batch_stories := [];
                         Historical.trace :=
                           (run_trace r1 ++ run_trace r2 ++ run_trace r3)
                           ++ [SaveState (run_state r3);
                               GitPush (Historical.push_message 120)] |}).
  { cbn [Historical.days seq]. rewrite D1, D2, D3. reflexivity. }
  split; [cbn [Historical.days seq]; rewrite D1; reflexivity|].
  split; [cbn [Historical.days seq]; rewrite D1, D2; reflexivity|].
  split; [exact E3|]. split.
  - unfold Historical.main. fold state0. fold l0. rewrite E3.
    unfold Historical.final_flush. simpl. now rewrite app_nil_r.
  - intros e He.
    apply in_app_or in He as [He|He];
      [exact (mine_pages_no_checkpoint _ _ _ _ _ _ H1 e He)|].
    apply in_app_or in He as [He|He];
      [exact (mine_pages_no_checkpoint _ _ _ _ _ _ H2 e He)
      |exact (mine_pages_no_checkpoint _ _ _ _ _ _ H3 e He)].
Qed.

Lemma three_days_of_forty_one_checkpoint_witness :
  exists tr st,
    Historical.main 1 forty_a_day_api sample_clock empty_world 3 100
    = Some (120, tr ++ [SaveState st; GitPush (Historical.push_message 120)])
    /\ (forall e, In e tr -> ~ is_checkpoint e)
    /\ List.length (published_docs st) = 120%nat
    /\ next_story_num st = 121.
Proof.
  assert (E : exists r1 r2 r3,
             (Historical.mine_date_all 1 forty_a_day_api (sample_clock 0)
                (set_next_story_num (load_state (state_file empty_world))
                   (get_next_story_num (listdir empty_world))) = Some r1
              /\ len (new_stories r1) = 40)
             /\ (Historical.mine_date_all 1 forty_a_day_api (sample_clock 1)
                   (run_state r1) = Some r2
                 /\ len (new_stories r2) = 40)
             /\ (Historical.mine_date_all 1 forty_a_day_api (sample_clock 2)
                   (run_state r2) = Some r3
                 /\ len (new_stories r3) = 40)
             /\ List.length (published_docs (run_state r3)) = 120%nat
             /\ next_story_num (run_state r3) = 121).
  { do 3 eexists.
    split; [split; vm_compute; reflexivity|].
    split; [split; vm_compute; reflexivity|].
    split; [split; vm_compute; reflexivity|].
    split; vm_compute; reflexivity. }
  destruct E as (r1 & r2 & r3 & (H1 & L1) & (H2 & L2) & (H3 & L3) & Hn & Hc).
  destruct (three_days_of_forty_one_checkpoint
              1 forty_a_day_api sample_clock empty_world r1 r2 r3
              H1 L1 H2 L2 H3 L3) as (_ & _ & _ & Hmain & Hquiet).
  exists (run_trace r1 ++ run_trace r2 ++ run_trace r3), (run_state r3).
  auto.
Defined.

(* ----------------------------------------------------------------- *)
(** ** [update_index] *)

Lemma startswith_spec (p s : str) :
  startswith p s = true <-> exists t, s = p ++ t.
Proof.
  revert s. induction p as [|a p IH]; intros s; simpl.
  - split; [intros _; now exists s|reflexivity].
  - destruct s as [|b s].
    + split; [discriminate|intros [t Ht]; discriminate].
    + rewrite andb_true_iff, Ascii.eqb_eq, IH. split.
      * intros [-> [t ->]]. now exists t.
      * intros [t [= -> ->]]. split; [reflexivity|now exists t].
Qed.




Lemma app_same_length {A} (p q x y : list A) :
  p ++ x = q ++ y -> List.length p = List.length q -> p = q /\ x = y.
Proof.
  revert q. induction p as [|a p IH]; intros [|b q]; simpl;
    try discriminate; [auto|].
  intros [= -> E] [= Hl]. destruct (IH _ E Hl) as [-> ->]. auto.
Qed.








Example update_index_without_marker_example :
  Daily.update_index (Some (lit "<html><body><ul></ul></body></html>"))
                     [sample_story]
  = lit "<html><body><ul></ul></body></html>".
Proof. vm_compute. reflexivity. Qed.


(* ----------------------------------------------------------------- *)
(** ** File names carry their sequence number *)

Lemma int_of_uint_acc (d : Decimal.uint) : forall acc,
  fold_left int_step (uint_chars d) (Zpos acc) = Zpos (Pos.of_uint_acc d acc).
Proof.
  unfold uint_chars.
  induction d as [|d IH|d IH|d IH|d IH|d IH|d IH|d IH|d IH|d IH|d IH];
    intros acc; [reflexivity|..]; cbn [NilEmpty.string_of_uint
      list_ascii_of_string fold_left Pos.of_uint_acc]; rewrite <- IH;
    f_equal; unfold int_step, digit_val, code; simpl N_of_ascii; lia.
Qed.

Lemma int_of_uint (d : Decimal.uint) :
  fold_left int_step (uint_chars d) 0 = Z.of_N (Pos.of_uint d).
Proof.
  unfold uint_chars.
  induction d as [|d IH|d IH|d IH|d IH|d IH|d IH|d IH|d IH|d IH|d IH];
    [reflexivity|exact IH|..];
    cbn [NilEmpty.string_of_uint list_ascii_of_string fold_left Pos.of_uint];
    exact (int_of_uint_acc d _).
Qed.

Lemma uint_chars_digits (d : Decimal.uint) :
  Forall (fun c => is_digit c = true) (uint_chars d).
Proof.
  unfold uint_chars.
  induction d; cbn [NilEmpty.string_of_uint list_ascii_of_string];
    constructor; auto.
Qed.

Lemma digits_of_N_chars (n : N) :
  digits_of_N n <> []
  /\ Forall (fun c => is_digit c = true) (digits_of_N n)
  /\ int_of_digits (digits_of_N n) = Z.of_N n.
Proof.
  unfold digits_of_N, NilZero.string_of_uint.
  pose proof (DecimalN.Unsigned.of_to n) as Hn.
  unfold N.of_uint in Hn.
  destruct (N.to_uint n) as [|d|d|d|d|d|d|d|d|d|d] eqn:E;
    (split; [discriminate|split]);
    try (apply (uint_chars_digits (_ d)));
    try (rewrite <- Hn; apply (int_of_uint (_ d))).
  - repeat constructor.
  - now rewrite <- Hn.
Qed.

Lemma int_of_digits_zeros (k : nat) (ds : str) :
  int_of_digits (repeat zero_char k ++ ds) = int_of_digits ds.
Proof.
  unfold int_of_digits. rewrite fold_left_app. f_equal.
  induction k as [|k IH]; [reflexivity|exact IH].
Qed.

Lemma take_while_digits (ds rest : str) :
  Forall (fun c => is_digit c = true) ds ->
  take_while is_digit (ds ++ hyphen :: rest) = ds.
Proof.
  induction 1 as [|c ds Hc _ IH]; simpl; [reflexivity|].
  now rewrite Hc, IH.
Qed.

Lemma drop_prefix_app (p s : str) : drop_prefix p (p ++ s) = Some s.
Proof.
  induction p as [|a p IH]; simpl; [reflexivity|].
  now rewrite Ascii.eqb_refl.
Qed.

Lemma startswith_app (p s : str) : startswith p (p ++ s) = true.
Proof. apply startswith_spec. now exists s. Qed.

Lemma endswith_app (p s : str) : endswith p (s ++ p) = true.
Proof. unfold endswith. rewrite rev_app_distr. apply startswith_app. Qed.

Lemma format_03d_digits (n : Z) :
  0 <= n ->
  format_03d n <> []
  /\ Forall (fun c => is_digit c = true) (format_03d n)
  /\ int_of_digits (format_03d n) = n.
Proof.
  intros Hn. unfold format_03d, zfill.
  destruct (Z.ltb_spec n 0) as [|_]; [lia|].
  destruct (digits_of_N_chars (Z.to_N n)) as (Hne & Hd & Hv).
  split; [|split].
  - intros E. apply app_eq_nil in E as [_ E]. contradiction.
  - apply Forall_app. split; [|exact Hd].
    apply Forall_forall. intros c Hc. apply repeat_spec in Hc. now subst.
  - rewrite int_of_digits_zeros, Hv. lia.
Qed.

(** The file name [create_story_html] writes under a sequence number that
    is not negative is an artifact name, and the number read back from it is
    that sequence number. *)
Lemma create_story_html_artifact_seq (doc : Doc) (n : Z) :
  0 <= n ->
  artifact_seq (fst (create_story_html doc n)) = Some n.
Proof.
  intros Hn. unfold create_story_html. cbn [fst].
  destruct (format_03d_digits n Hn) as (Hne & Hd & Hv).
  unfold artifact_seq, is_story_file.
  rewrite startswith_app.
  replace (lit "story-" ++ format_03d n ++ lit "-fr-"
           ++ slugify (doc_title doc) ++ lit ".html")
    with ((lit "story-" ++ format_03d n ++ lit "-fr-"
           ++ slugify (doc_title doc)) ++ lit ".html")
    by (now rewrite <- !app_assoc).
  rewrite endswith_app. cbn [andb].
  rewrite <- !app_assoc.
  unfold match_story_num. rewrite drop_prefix_app.
  change (lit "-fr-" ++ slugify (doc_title doc) ++ lit ".html")
    with (hyphen :: lit "fr-" ++ slugify (doc_title doc) ++ lit ".html").
  rewrite take_while_digits by exact Hd.
  destruct (format_03d n); [contradiction|]. now rewrite <- Hv.
Qed.

(* ================================================================= *)
(** * Further properties of the code *)

(* ----------------------------------------------------------------- *)
(** ** What a mining call publishes, counted *)

Lemma numbered_snoc (n : Z) (docs : list Doc) (d : Doc) :
  numbered n (docs ++ [d]) = numbered n docs ++ [(d, n + len docs)].
Proof.
  revert n. induction docs as [|a docs IH]; intros n; simpl.
  - change (len []) with 0. now rewrite Z.add_0_r.
  - rewrite IH. replace (n + 1 + len docs) with (n + len (a :: docs));
      [reflexivity|]. unfold len. cbn [Datatypes.length]. lia.
Qed.

Lemma numbered_length (n : Z) (docs : list Doc) :
  List.length (numbered n docs) = List.length docs.
Proof. revert n. induction docs; intros n; simpl; auto. Qed.

Lemma numbered_range (n : Z) (docs : list Doc) (d : Doc) (m : Z) :
  In (d, m) (numbered n docs) -> In d docs /\ n <= m < n + len docs.
Proof.
  revert n. induction docs as [|a docs IH]; intros n; simpl; [contradiction|].
  unfold len in *. cbn [Datatypes.length].
  intros [[= -> ->]|H]; [split; [now left|lia]|].
  destruct (IH _ H) as [Hin Hr]. split; [now right|lia].
Qed.

Lemma mine_pages_published api date limit fuel p r res :
  mine_pages fuel api date limit p r = Some res ->
  exists docs, published r res docs.
Proof.
  apply (mine_pages_invariant api date limit r
           (fun x => exists docs, published r x docs)).
  - intros x q (docs & H1 & H2 & H3 & H4 & H5) _. exists docs.
    repeat split; try assumption; try apply H5.
    unfold writes in *. simpl. rewrite filter_app. simpl.
    now rewrite app_nil_r.
  - intros x q data doc (docs & H1 & H2 & H3 & H4 & H5 & H6) _ _ _ _ Hm.
    exists (docs ++ [doc]).
    assert (Hfresh : ~ In (doc_num doc) (published_docs (run_state x))).
    { intros Hin. apply mem_In in Hin. congruence. }
    rewrite H1 in Hfresh.
    unfold published.
    rewrite publish_ledger, publish_cursor, publish_stories, publish_trace.
    rewrite numbered_snoc, !map_app, H1, H2, H3. unfold writes in *.
    rewrite filter_app, H4, len_app, <- !app_assoc.
    change (len [doc]) with 1.
    repeat split; try reflexivity.
    + lia.
    + apply NoDup_app; [exact H5|repeat constructor; simpl; tauto|].
      intros id Hid [<-|[]]. apply Hfresh, in_or_app. now right.
    + intros d Hd. apply in_app_or in Hd as [Hd|[<-|[]]]; [auto|].
      intros Hin. apply Hfresh, in_or_app. now left.
  - exists []. unfold published. simpl. rewrite !app_nil_r.
    change (len []) with 0.
    repeat split; try reflexivity; try lia; try constructor; contradiction.
  - now right.
Qed.

(** X1: a mining call of either program numbers the stories it returns
    consecutively from the cursor it was given, writes one artifact for each
    returned story under that number and no other, and moves the cursor and
    the length of the ledger forward by the number of stories returned. *)
Theorem mining_numbers_stories_consecutively fuel api date state res :
  mined fuel api date state res ->
  exists docs,
    new_stories res = map story_of (numbered (next_story_num state) docs)
    /\ writes (run_trace res)
       = map write_of (numbered (next_story_num state) docs)
    /\ published_docs (run_state res)
       = published_docs state ++ map doc_num docs
    /\ next_story_num (run_state res)
       = next_story_num state + len (new_stories res)
    /\ List.length (published_docs (run_state res))
       = (List.length (published_docs state)
          + List.length (new_stories res))%nat.
Proof.
  intros Hm. destruct (mined_pages _ _ _ _ _ Hm) as [limit H].
  destruct (mine_pages_published _ _ _ _ _ _ _ H)
    as (docs & H1 & H2 & H3 & H4 & _).
  simpl in H1, H2, H3, H4. exists docs.
  assert (Hl : List.length (new_stories res) = List.length docs).
  { now rewrite H3, length_map, numbered_length. }
  repeat split; try assumption.
  - rewrite H2. unfold len. now rewrite Hl.
  - now rewrite H1, length_app, length_map, Hl.
Qed.

Lemma mining_numbers_stories_consecutively_witness :
  exists res docs,
    mined 1 two_docs_api sample_date seeded_state res
    /\ new_stories res = map story_of (numbered 13 docs)
    /\ next_story_num (run_state res) = 14.
Proof.
  assert (E : exists res,
             Daily.mine_date 1 two_docs_api sample_date seeded_state 50 = Some res
             /\ len (new_stories res) = 1).
  { eexists. split; vm_compute; reflexivity. }
  destruct E as (res & Hrun & Hlen).
  assert (Hm : mined 1 two_docs_api sample_date seeded_state res).
  { left. now exists 50. }
  destruct (mining_numbers_stories_consecutively _ _ _ _ _ Hm)
    as (docs & H1 & _ & _ & H4 & _).
  exists res, docs. split; [exact Hm|]. split; [exact H1|].
  rewrite H4, Hlen. reflexivity.
Defined.

(** X2: a ledger without duplicates stays without duplicates over a
    mining call of either program. *)
Theorem ledger_stays_duplicate_free fuel api date state res :
  NoDup (published_docs state) ->
  mined fuel api date state res ->
  NoDup (published_docs (run_state res)).
Proof.
  intros Hnd Hm. destruct (mined_pages _ _ _ _ _ Hm) as [limit H].
  destruct (mine_pages_published _ _ _ _ _ _ _ H)
    as (docs & H1 & _ & _ & _ & H5 & H6).
  simpl in H1, H6. rewrite H1. apply NoDup_app; [exact Hnd|exact H5|].
  intros id Hold Hnew. apply in_map_iff in Hnew as (d & <- & Hd).
  exact (H6 d Hd Hold).
Qed.

Lemma ledger_stays_duplicate_free_witness :
  exists res,
    mined 1 repeating_api sample_date fresh_state res
    /\ published_docs (run_state res) = [lit "2024-01"; lit "2024-02"]
    /\ NoDup (published_docs (run_state res)).
Proof.
  assert (E : exists res,
             Daily.mine_date 1 repeating_api sample_date fresh_state 50 = Some res
             /\ published_docs (run_state res) = [lit "2024-01"; lit "2024-02"]).
  { eexists. split; vm_compute; reflexivity. }
  destruct E as (res & Hrun & Hledger).
  assert (Hm : mined 1 repeating_api sample_date fresh_state res).
  { left. now exists 50. }
  exists res. split; [exact Hm|]. split; [exact Hledger|].
  apply (ledger_stays_duplicate_free 1 repeating_api sample_date fresh_state res);
    [constructor|exact Hm].
Defined.

(* ----------------------------------------------------------------- *)
(** ** The pages a call asks for *)

Lemma pages_from_S (date : str) (p : Z) (n : nat) :
  pages_from date p (S n) = (date, p) :: pages_from date (p + 1) n.
Proof.
  unfold pages_from. cbn [seq map]. rewrite Z.add_0_r. f_equal.
  rewrite <- seq_shift, map_map. apply map_ext. intros i. f_equal. lia.
Qed.

Lemma for_docs_fetch_list limit docs : forall r r' returned,
  for_docs limit docs r = (r', returned) ->
  fetches (run_trace r') = fetches (run_trace r).
Proof.
  induction docs as [|doc rest IH]; intros r r' returned; simpl.
  - now intros [= <- <-].
  - assert (Hpub : fetches (run_trace (publish doc r)) = fetches (run_trace r)).
    { rewrite publish_trace. unfold fetches. rewrite flat_map_app. simpl.
      now rewrite app_nil_r. }
    destruct (mem (doc_num doc) (published_docs (run_state r))); [apply IH|].
    destruct (batch_full limit (publish doc r)).
    + now intros [= <- <-].
    + intros H. now rewrite (IH _ _ _ H).
Qed.

Lemma mine_pages_fetch_list api date limit fuel : forall p r res,
  mine_pages fuel api date limit p r = Some res ->
  exists n,
    (1 <= n <= fuel)%nat
    /\ fetches (run_trace res) = fetches (run_trace r) ++ pages_from date p n
    /\ forall q, p <= q -> stops_at api date q -> p + Z.of_nat n - 1 <= q.
Proof.
  induction fuel as [|fuel IH]; intros p r res; [discriminate|].
  rewrite mine_pages_unfold.
  assert (Hlog : fetches (run_trace (log (Fetch date p) r))
                 = fetches (run_trace r) ++ [(date, p)]).
  { simpl. unfold fetches. now rewrite flat_map_app. }
  assert (Hone : forall x, fetches (run_trace x)
                           = fetches (run_trace (log (Fetch date p) r)) ->
                 exists n, (1 <= n <= S fuel)%nat
                   /\ fetches (run_trace x)
                      = fetches (run_trace r) ++ pages_from date p n
                   /\ forall q, p <= q -> stops_at api date q ->
                                p + Z.of_nat n - 1 <= q).
  { intros x Hx. exists 1%nat. split; [lia|].
    split; [now rewrite Hx, Hlog, pages_from_S|]. intros; lia. }
  destruct (api date p) as [|data] eqn:Hp; [intros [= <-]; now apply Hone|].
  destruct (results data) as [|d ds] eqn:Hres; [intros [= <-]; now apply Hone|].
  assert (Hne : results data <> []) by now rewrite Hres.
  rewrite <- Hres. clear Hres d ds.
  destruct (for_docs limit (results data) (log (Fetch date p) r))
    as [r1 returned] eqn:Hfd.
  pose proof (for_docs_fetch_list _ _ _ _ _ Hfd) as Hsame.
  destruct returned; [intros [= <-]; now apply Hone|].
  destruct (Z.gtb_spec (p + 1) (get_total_pages data)) as [Hgt|Hle];
    [intros [= <-]; now apply Hone|].
  intros Hrun. destruct (IH _ _ _ Hrun) as (n & Hn & Hf & Hstop).
  exists (S n). split; [lia|]. split.
  - rewrite Hf, Hsame, Hlog, pages_from_S, <- app_assoc. reflexivity.
  - intros q Hq Hs.
    assert (Hqp : q <> p).
    { intros ->. unfold stops_at in Hs. rewrite Hp in Hs.
      destruct Hs as [Hs|Hs]; [contradiction|lia]. }
    specialize (Hstop q ltac:(lia) Hs). lia.
Qed.

(** X3: a mining call of either program asks for the pages 1, 2, ..., n of
    the date it mines, in this order and each one once (no page is asked
    for twice, no page is skipped, no other date is asked for), with at
    least one request; and it asks for no page beyond one after which the
    loop leaves (a failed fetch, an empty page, the last of [total_pages]). *)
Theorem pages_requested_in_order fuel api date state res :
  mined fuel api date state res ->
  exists n,
    (1 <= n <= fuel)%nat
    /\ fetches (run_trace res) = pages_from date 1 n
    /\ forall q, 1 <= q -> stops_at api date q -> Z.of_nat n <= q.
Proof.
  intros Hm. destruct (mined_pages _ _ _ _ _ Hm) as [limit H].
  destruct (mine_pages_fetch_list _ _ _ _ _ _ _ H) as (n & Hn & Hf & Hstop).
  exists n. split; [exact Hn|]. split; [exact Hf|].
  intros q Hq Hs. specialize (Hstop q Hq Hs). lia.
Qed.

Lemma pages_requested_in_order_witness :
  exists res n,
    mined 5 failing_api sample_date fresh_state res
    /\ fetches (run_trace res) = pages_from sample_date 1 n
    /\ Z.of_nat n <= 2.
Proof.
  assert (E : exists res,
             Historical.mine_date_all 5 failing_api sample_date fresh_state
             = Some res).
  { eexists. vm_compute. reflexivity. }
  destruct E as (res & Hrun).
  assert (Hm : mined 5 failing_api sample_date fresh_state res) by now right.
  destruct (pages_requested_in_order _ _ _ _ _ Hm) as (n & _ & Hn & Hstop).
  exists res, n. split; [exact Hm|]. split; [exact Hn|].
  apply Hstop; [lia|exact I].
Defined.

(* ----------------------------------------------------------------- *)
(** ** A batch limit that is not reached *)

Lemma for_docs_stories_grow limit docs : forall r r' returned,
  for_docs limit docs r = (r', returned) ->
  len (new_stories r) <= len (new_stories r').
Proof.
  induction docs as [|doc rest IH]; intros r r' returned; simpl.
  - intros [= <- <-]. lia.
  - assert (Hpub : len (new_stories r) <= len (new_stories (publish doc r))).
    { rewrite publish_stories, len_app. change (len [_]) with 1. lia. }
    destruct (mem (doc_num doc) (published_docs (run_state r))); [apply IH|].
    destruct (batch_full limit (publish doc r)).
    + now intros [= <- <-].
    + intros H. specialize (IH _ _ _ H). lia.
Qed.

Lemma mine_pages_stories_grow api date limit fuel p r res :
  mine_pages fuel api date limit p r = Some res ->
  len (new_stories r) <= len (new_stories res).
Proof.
  intros H. destruct (mine_pages_published _ _ _ _ _ _ _ H)
    as (docs & _ & _ & H3 & _).
  rewrite H3, len_app. pose proof (len_nonneg (map story_of
    (numbered (next_story_num (run_state r)) docs))). lia.
Qed.

Lemma for_docs_below_limit k docs : forall r r' returned,
  len (new_stories r') < k ->
  (for_docs (Some k) docs r = (r', returned)
   <-> returned = false /\ for_docs None docs r = (r', false)).
Proof.
  induction docs as [|doc rest IH]; intros r r' returned Hlt;
    cbn [for_docs batch_full].
  - split; [intros [= <- <-]; auto|intros [-> H]; exact H].
  - destruct (mem (doc_num doc) (published_docs (run_state r))); [now apply IH|].
    destruct (Z.geb_spec (len (new_stories (publish doc r))) k) as [Hge|Hlow].
    + split.
      * intros [= <- <-]. lia.
      * intros [_ H]. apply for_docs_stories_grow in H. lia.
    + now apply IH.
Qed.

Lemma mine_pages_below_limit api date k fuel : forall p r res,
  len (new_stories res) < k ->
  (mine_pages fuel api date (Some k) p r = Some res
   <-> mine_pages fuel api date None p r = Some res).
Proof.
  induction fuel as [|fuel IH]; intros p r res Hlt; [reflexivity|].
  rewrite !mine_pages_unfold.
  destruct (api date p) as [|data]; [reflexivity|].
  destruct (results data) as [|d ds] eqn:Hres; [reflexivity|].
  rewrite <- Hres. clear Hres d ds.
  destruct (for_docs (Some k) (results data) (log (Fetch date p) r))
    as [ra ba] eqn:Ha.
  destruct (for_docs None (results data) (log (Fetch date p) r))
    as [rb bb] eqn:Hb.
  assert (Hbb : bb = false).
  { destruct bb; [|reflexivity].
    now destruct (proj2 (proj2 (for_docs_ledger _ _ _ _ _ Hb)) eq_refl). }
  subst bb.
  assert (Hfull : ba = true -> k <= len (new_stories ra)).
  { intros ->. apply batch_full_spec.
    exact (proj2 (proj2 (for_docs_ledger _ _ _ _ _ Ha)) eq_refl). }
  split.
  - intros Hrun.
    assert (Hra : len (new_stories ra) < k).
    { destruct ba; [injection Hrun as <-; lia|].
      destruct (p + 1 >? get_total_pages data); [injection Hrun as <-; lia|].
      apply mine_pages_stories_grow in Hrun. lia. }
    destruct (proj1 (for_docs_below_limit k _ _ _ _ Hra) Ha) as [-> Hn].
    rewrite Hb in Hn. injection Hn as ->.
    destruct (p + 1 >? get_total_pages data); [exact Hrun|].
    now apply IH.
  - intros Hrun.
    assert (Hrb : len (new_stories rb) < k).
    { destruct (p + 1 >? get_total_pages data); [injection Hrun as <-; lia|].
      apply mine_pages_stories_grow in Hrun. lia. }
    pose proof (proj2 (for_docs_below_limit k _ _ _ false Hrb)
                  (conj eq_refl Hb)) as Hs.
    rewrite Ha in Hs. injection Hs as -> ->.
    destruct (p + 1 >? get_total_pages data); [exact Hrun|].
    now apply IH.
Qed.

(** X4: below the batch limit the two mining functions agree: for a run
    with fewer than [k] new stories, [mine_date] with the batch size [k]
    returns this run exactly when [mine_date_all] does. *)
Theorem batch_limit_not_reached fuel api date state k res :
  len (new_stories res) < k ->
  (Daily.mine_date fuel api date state k = Some res
   <-> Historical.mine_date_all fuel api date state = Some res).
Proof. apply mine_pages_below_limit. Qed.

Lemma batch_limit_not_reached_witness :
  exists res,
    Historical.mine_date_all 1 two_docs_api sample_date fresh_state = Some res
    /\ len (new_stories res) = 2
    /\ Daily.mine_date 1 two_docs_api sample_date fresh_state 3 = Some res.
Proof.
  assert (E : exists res,
             Historical.mine_date_all 1 two_docs_api sample_date fresh_state
             = Some res
             /\ len (new_stories res) = 2).
  { eexists. split; vm_compute; reflexivity. }
  destruct E as (res & Hrun & Hlen).
  exists res. split; [exact Hrun|]. split; [exact Hlen|].
  apply (batch_limit_not_reached 1 two_docs_api sample_date fresh_state 3 res);
    [rewrite Hlen; reflexivity|exact Hrun].
Defined.

(* ----------------------------------------------------------------- *)
(** ** The shape of a slug *)

Lemma double_hyphen_cons (a b : ascii) (t : str) :
  double_hyphen (a :: b :: t)
  = (Ascii.eqb a hyphen && Ascii.eqb b hyphen) || double_hyphen (b :: t).
Proof. reflexivity. Qed.

Lemma collapse_runs_no_double (s : str) : forall b,
  double_hyphen (collapse_runs b s) = false
  /\ (b = true -> hd_error (collapse_runs b s) <> Some hyphen).
Proof.
  induction s as [|c s IH]; intros b; cbn [collapse_runs].
  - split; [reflexivity|discriminate].
  - destruct (is_sep c) eqn:Es.
    + destruct (IH true) as [Hd Hh]. specialize (Hh eq_refl).
      destruct b; [auto|]. split; [|discriminate].
      destruct (collapse_runs true s) as [|x rest] eqn:E; [reflexivity|].
      rewrite double_hyphen_cons, Hd.
      destruct (Ascii.eqb_spec x hyphen) as [->|_]; [now contradiction Hh|].
      now rewrite andb_false_r.
    + assert (Hc : Ascii.eqb c hyphen = false).
      { unfold is_sep in Es. apply orb_false_iff in Es. tauto. }
      destruct (IH false) as [Hd _]. split.
      * destruct (collapse_runs false s) as [|x rest] eqn:E; [reflexivity|].
        now rewrite double_hyphen_cons, Hc, Hd.
      * intros _ [= ->]. discriminate.
Qed.

Lemma double_hyphen_app (a b : str) :
  double_hyphen (a ++ b) = false ->
  double_hyphen a = false /\ double_hyphen b = false.
Proof.
  induction a as [|x a IH]; [auto|].
  destruct a as [|y a].
  - cbn [app]. destruct b as [|z b]; [auto|].
    rewrite double_hyphen_cons. intros H. apply orb_false_iff in H.
    split; [reflexivity|tauto].
  - cbn [app] in *. rewrite !double_hyphen_cons. intros H.
    apply orb_false_iff in H as [H1 H2].
    destruct (IH H2) as [Ha Hb]. rewrite H1, Ha. auto.
Qed.

Lemma double_hyphen_none (s : str) :
  double_hyphen s = false ->
  forall pre post, s <> pre ++ hyphen :: hyphen :: post.
Proof.
  intros H pre post ->. apply double_hyphen_app in H as [_ H].
  simpl in H. discriminate.
Qed.

(** X5: whatever the title, the slug is made of lowercase ASCII letters,
    digits and hyphens only, has at most 50 characters, does not begin with
    a hyphen and never has two hyphens in a row. *)
Theorem slug_shape (t : str) :
  Forall (fun c => slug_char c = true) (slugify t)
  /\ (List.length (slugify t) <= 50)%nat
  /\ hd_error (slugify t) <> Some hyphen
  /\ forall pre post, slugify t <> pre ++ hyphen :: hyphen :: post.
Proof.
  split; [apply slugify_chars|]. split; [apply slugify_length|].
  split; [apply slugify_no_leading_hyphen|].
  apply double_hyphen_none. unfold slugify, strip.
  set (c := collapse_runs false _).
  assert (Hc : double_hyphen c = false) by apply collapse_runs_no_double.
  destruct (lstrip_suffix hyphen c) as [p Hp]. rewrite Hp in Hc.
  apply double_hyphen_app in Hc as [_ Hc].
  destruct (rstrip_prefix hyphen (lstrip hyphen c)) as [q Hq].
  rewrite Hq in Hc. apply double_hyphen_app in Hc as [Hc _].
  rewrite <- (firstn_skipn 50 (rstrip hyphen (lstrip hyphen c))) in Hc.
  now apply double_hyphen_app in Hc as [Hc _].
Qed.

Lemma collapse_runs_length (s : str) : forall b,
  (List.length (collapse_runs b s) <= List.length s)%nat.
Proof.
  induction s as [|c s IH]; intros b; cbn [collapse_runs]; [auto|].
  pose proof (IH true). pose proof (IH false).
  destruct (is_sep c); [destruct b|]; cbn [Datatypes.length]; lia.
Qed.

Lemma lstrip_length (c0 : ascii) (s : str) :
  (List.length (lstrip c0 s) <= List.length s)%nat.
Proof.
  destruct (lstrip_suffix c0 s) as [p Hp]. rewrite Hp at 2.
  rewrite length_app. lia.
Qed.

Lemma rstrip_length (c0 : ascii) (s : str) :
  (List.length (rstrip c0 s) <= List.length s)%nat.
Proof.
  destruct (rstrip_prefix c0 s) as [q Hq]. rewrite Hq at 2.
  rewrite length_app. lia.
Qed.

(** X6: for a title of at most 50 characters the slug is not cut and does
    not end with a hyphen. *)
Theorem short_title_slug_has_no_trailing_hyphen (t : str) :
  (List.length t <= 50)%nat ->
  slugify t = strip hyphen (collapse_runs false (filter slug_keep (lower t)))
  /\ forall pre, slugify t <> pre ++ [hyphen].
Proof.
  intros Hlen.
  assert (Hs : (List.length (strip hyphen (collapse_runs false
                   (filter slug_keep (lower t)))) <= 50)%nat).
  { unfold strip.
    pose proof (rstrip_length hyphen
                  (lstrip hyphen (collapse_runs false
                                    (filter slug_keep (lower t))))).
    pose proof (lstrip_length hyphen
                  (collapse_runs false (filter slug_keep (lower t)))).
    pose proof (collapse_runs_length (filter slug_keep (lower t)) false).
    pose proof (filter_length_le slug_keep (lower t)).
    unfold lower in *. rewrite length_map in *. lia. }
  destruct (slugify_no_trailing_hyphen_uncut t Hs) as [E Hlast].
  split; [exact E|].
  intros pre Hpre. apply Hlast. rewrite Hpre, rev_app_distr. reflexivity.
Qed.

Lemma short_title_slug_has_no_trailing_hyphen_witness :
  slugify (lit "Notice - ") = lit "notice"
  /\ forall pre, slugify (lit "Notice - ") <> pre ++ [hyphen].
Proof.
  split; [vm_compute; reflexivity|].
  apply (short_title_slug_has_no_trailing_hyphen (lit "Notice - ")).
  vm_compute. repeat constructor.
Defined.

(* ----------------------------------------------------------------- *)
(** ** The scan of the directory *)

Lemma get_next_story_num_cases (listdir : list str) :
  get_next_story_num listdir =
  match flat_map seq_list (filter is_story_file listdir) with
  | [] => 1
  | n :: ns => list_max_Z n ns + 1
  end.
Proof.
  unfold get_next_story_num. fold seq_list.
  destruct (filter is_story_file listdir); reflexivity.
Qed.

Lemma get_next_story_num_upper (listdir : list str) (f : str) (m : Z) :
  In f listdir -> artifact_seq f = Some m ->
  m + 1 <= get_next_story_num listdir.
Proof.
  intros Hf Hm. rewrite get_next_story_num_cases.
  assert (Hin : In m (flat_map seq_list (filter is_story_file listdir)))
    by (apply in_story_nums; eauto).
  destruct (flat_map seq_list (filter is_story_file listdir)) as [|n ns];
    [contradiction|].
  destruct (list_max_Z_upper ns n) as [H1 H2].
  destruct Hin as [<-|Hin]; [lia|]. specialize (H2 m Hin). lia.
Qed.

Lemma get_next_story_num_attained (listdir : list str) :
  (forall f, In f listdir -> artifact_seq f = None)
  /\ get_next_story_num listdir = 1
  \/ exists f m, In f listdir /\ artifact_seq f = Some m
                 /\ get_next_story_num listdir = m + 1.
Proof.
  rewrite get_next_story_num_cases.
  pose proof (in_story_nums listdir) as Hin.
  destruct (flat_map seq_list (filter is_story_file listdir)) as [|n ns].
  - left. split; [|reflexivity]. intros f Hf.
    destruct (artifact_seq f) as [m|] eqn:E; [|reflexivity].
    exfalso. apply (proj2 (Hin m)). eauto.
  - right. destruct (proj1 (Hin _) (list_max_Z_in ns n)) as (f & Hf & Hm).
    exists f, (list_max_Z n ns). auto.
Qed.

Lemma get_next_story_num_intro (listdir : list str) (v : Z) :
  (exists f, In f listdir /\ artifact_seq f = Some (v - 1)) ->
  (forall f m, In f listdir -> artifact_seq f = Some m -> m < v) ->
  get_next_story_num listdir = v.
Proof.
  intros (f & Hf & Hv) Hall.
  pose proof (get_next_story_num_upper _ _ _ Hf Hv).
  destruct (get_next_story_num_attained listdir)
    as [[Hnone _]|(f0 & m0 & Hf0 & Hm0 & E)].
  - rewrite (Hnone f Hf) in Hv. discriminate.
  - specialize (Hall _ _ Hf0 Hm0). lia.
Qed.

Lemma int_of_digits_nonneg (ds : str) :
  Forall (fun c => is_digit c = true) ds -> 0 <= int_of_digits ds.
Proof.
  unfold int_of_digits. intros H.
  assert (G : forall acc, 0 <= acc ->
            0 <= fold_left (fun acc c => 10 * acc + digit_val c) ds acc).
  { induction H as [|c ds Hc _ IH]; intros acc Hacc; cbn [fold_left];
      [exact Hacc|].
    apply IH. unfold is_digit, in_range in Hc.
    apply andb_true_iff in Hc as [H1 H2]. apply N.leb_le in H1.
    unfold digit_val. lia. }
  apply G. lia.
Qed.

Lemma take_while_all (p : ascii -> bool) (s : str) :
  Forall (fun c => p c = true) (take_while p s).
Proof.
  induction s as [|c s IH]; simpl; [constructor|].
  destruct (p c) eqn:E; constructor; auto.
Qed.

Lemma artifact_seq_nonneg (f : str) (m : Z) :
  artifact_seq f = Some m -> 0 <= m.
Proof.
  unfold artifact_seq, match_story_num.
  destruct (is_story_file f); [|discriminate].
  destruct (drop_prefix (lit "story-") f) as [rest|]; [|discriminate].
  pose proof (take_while_all is_digit rest) as Hd.
  destruct (take_while is_digit rest) as [|c ds]; [discriminate|].
  intros [= <-]. now apply int_of_digits_nonneg.
Qed.

Lemma get_next_story_num_pos (listdir : list str) :
  1 <= get_next_story_num listdir.
Proof.
  destruct (get_next_story_num_attained listdir)
    as [[_ E]|(f & m & _ & Hm & E)]; rewrite E; [lia|].
  apply artifact_seq_nonneg in Hm. lia.
Qed.

Lemma get_next_story_num_mono (l l' : list str) :
  incl l l' -> get_next_story_num l <= get_next_story_num l'.
Proof.
  intros Hincl. destruct (get_next_story_num_attained l)
    as [[_ E]|(f & m & Hf & Hm & E)]; rewrite E;
    [apply get_next_story_num_pos|].
  exact (get_next_story_num_upper _ _ _ (Hincl _ Hf) Hm).
Qed.

(** X7: the number [get_next_story_num] returns is at least 1, depends
    only on which names the directory holds (not on their order or on
    repetitions), and does not go down when the directory gains entries. *)
Theorem next_story_num_of_a_directory (listdir listdir' : list str) :
  1 <= get_next_story_num listdir
  /\ (incl listdir listdir' ->
      get_next_story_num listdir <= get_next_story_num listdir')
  /\ ((forall f, In f listdir <-> In f listdir') ->
      get_next_story_num listdir = get_next_story_num listdir').
Proof.
  split; [apply get_next_story_num_pos|].
  split; [apply get_next_story_num_mono|].
  intros Hsame.
  apply Z.le_antisymm; apply get_next_story_num_mono; intros f Hf;
    now apply Hsame.
Qed.

Lemma next_story_num_of_a_directory_witness :
  get_next_story_num (rev sample_listdir ++ sample_listdir)
  = get_next_story_num sample_listdir
  /\ get_next_story_num sample_listdir
     <= get_next_story_num (lit "story-100-fr-x.html" :: sample_listdir).
Proof.
  split.
  - symmetry.
    apply (proj2 (proj2 (next_story_num_of_a_directory
                           sample_listdir (rev sample_listdir ++ sample_listdir)))).
    intros f. rewrite in_app_iff, <- in_rev. tauto.
  - apply (proj1 (proj2 (next_story_num_of_a_directory
                           sample_listdir
                           (lit "story-100-fr-x.html" :: sample_listdir)))).
    intros f Hf. now right.
Defined.

Lemma format_03d_negative (n : Z) :
  n < 0 -> exists rest, format_03d n = hyphen :: rest.
Proof.
  intros Hn. unfold format_03d.
  destruct (Z.ltb_spec n 0); [eauto|lia].
Qed.

(** X8: the name [create_story_html] writes under a sequence number that is
    not negative has the prefix and the extension of an artifact, and the
    number the directory scan reads back from it is that sequence number;
    under a negative number the name carries no number for the scan. *)
Theorem artifact_name_round_trip (doc : Doc) (n : Z) :
  (0 <= n -> artifact_seq (fst (create_story_html doc n)) = Some n)
  /\ (n < 0 -> artifact_seq (fst (create_story_html doc n)) = None).
Proof.
  split; [apply create_story_html_artifact_seq|].
  intros Hn. destruct (format_03d_negative n Hn) as [rest E].
  unfold create_story_html. cbn [fst]. rewrite E.
  unfold artifact_seq, match_story_num.
  destruct (is_story_file _); [|reflexivity].
  rewrite drop_prefix_app. reflexivity.
Qed.

Lemma artifact_name_round_trip_witness :
  artifact_seq (fst (create_story_html (sample_doc 1) 1234)) = Some 1234
  /\ artifact_seq (fst (create_story_html (sample_doc 1) (-5))) = None.
Proof.
  split.
  - apply (proj1 (artifact_name_round_trip (sample_doc 1) 1234)). lia.
  - apply (proj2 (artifact_name_round_trip (sample_doc 1) (-5))). lia.
Defined.

(* ----------------------------------------------------------------- *)
(** ** The names of the artifacts of a run *)

Lemma numbered_app (n : Z) (a b : list Doc) :
  numbered n (a ++ b) = numbered n a ++ numbered (n + len a) b.
Proof.
  revert n. induction a as [|d a IH]; intros n; cbn [app numbered].
  - change (len []) with 0. now rewrite Z.add_0_r.
  - rewrite IH. replace (n + 1 + len a) with (n + len (d :: a));
      [reflexivity|]. unfold len. cbn [Datatypes.length]. lia.
Qed.

Lemma name_of_seq (d : Doc) (k : Z) :
  0 <= k -> artifact_seq (name_of (d, k)) = Some k.
Proof. apply create_story_html_artifact_seq. Qed.

Lemma numbered_names_nodup (docs : list Doc) : forall n,
  0 <= n -> NoDup (map name_of (numbered n docs)).
Proof.
  induction docs as [|d docs IH]; intros n Hn; cbn [numbered map].
  - constructor.
  - constructor; [|apply IH; lia].
    intros Hin. apply in_map_iff in Hin as ([d' k] & E & Hk).
    apply numbered_range in Hk as [_ Hk].
    assert (Some k = Some n).
    { rewrite <- (name_of_seq d' k) by lia.
      rewrite <- (name_of_seq d n) by lia. now rewrite E. }
    injection H as ->. lia.
Qed.

Lemma numbered_names_fresh (listdir : list str) (n : Z) (docs : list Doc) :
  get_next_story_num listdir <= n ->
  forall dn, In dn (numbered n docs) -> ~ In (name_of dn) listdir.
Proof.
  intros Hn [d k] Hk Hin. apply numbered_range in Hk as [_ Hk].
  assert (1 <= get_next_story_num listdir).
  { destruct (get_next_story_num_attained listdir)
      as [[_ E]|(f & m & _ & Hm & E)]; rewrite E; [lia|].
    apply artifact_seq_nonneg in Hm. lia. }
  pose proof (get_next_story_num_upper _ _ _ Hin (name_of_seq d k ltac:(lia))).
  lia.
Qed.

Lemma rescan_after_numbered (listdir : list str) (docs : list Doc) :
  get_next_story_num
    (listdir ++ map name_of (numbered (get_next_story_num listdir) docs))
  = get_next_story_num listdir + len docs.
Proof.
  set (n0 := get_next_story_num listdir).
  assert (Hn0 : 1 <= n0).
  { unfold n0. destruct (get_next_story_num_attained listdir)
      as [[_ E]|(f & m & _ & Hm & E)]; rewrite E; [lia|].
    apply artifact_seq_nonneg in Hm. lia. }
  destruct docs as [|d0 docs0] eqn:Hdocs.
  - cbn [numbered map]. rewrite app_nil_r. change (len []) with 0. lia.
  - rewrite <- Hdocs.
    assert (Hne : docs <> []) by (rewrite Hdocs; discriminate).
    clear Hdocs d0 docs0.
    destruct (exists_last Hne) as (docs' & d & ->).
    apply get_next_story_num_intro.
    + exists (name_of (d, n0 + len docs')). split.
      * apply in_or_app. right. rewrite numbered_snoc, map_app.
        apply in_or_app. right. now left.
      * rewrite name_of_seq by (pose proof (len_nonneg docs'); lia).
        f_equal. rewrite len_app. change (len [d]) with 1. lia.
    + intros f m Hf Hm. apply in_app_or in Hf as [Hf|Hf].
      * pose proof (get_next_story_num_upper _ _ _ Hf Hm).
        pose proof (len_nonneg (docs' ++ [d])). fold n0 in H. lia.
      * apply in_map_iff in Hf as ([d' k] & <- & Hk).
        apply numbered_range in Hk as [_ Hk].
        rewrite name_of_seq in Hm by lia. injection Hm as <-. lia.
Qed.

Lemma written_names_filter (tr : list Event) :
  written_names tr = written_names (writes tr).
Proof.
  unfold written_names, writes. induction tr as [|e tr IH]; [reflexivity|].
  destruct e; cbn [flat_map filter is_write app]; now rewrite ?IH.
Qed.

Lemma written_names_write_of (l : list (Doc * Z)) :
  written_names (map write_of l) = map name_of l.
Proof.
  unfold written_names. induction l as [|dn l IH]; [reflexivity|].
  cbn [map flat_map write_of app]. now rewrite IH.
Qed.

Lemma written_names_writes (tr : list Event) (n : Z) (docs : list Doc) :
  writes tr = map write_of (numbered n docs) ->
  written_names tr = map name_of (numbered n docs)
  /\ forall d k f, In (WriteStory d k f) tr ->
                   In (d, k) (numbered n docs) /\ f = name_of (d, k).
Proof.
  intros H. split.
  - rewrite written_names_filter, H. apply written_names_write_of.
  - intros d k f Hin.
    assert (Hw : In (WriteStory d k f) (writes tr)).
    { unfold writes. apply filter_In. split; [exact Hin|reflexivity]. }
    rewrite H in Hw. apply in_map_iff in Hw as ([d' k'] & E & Hdn).
    unfold write_of in E. cbn [fst snd] in E. injection E as -> -> <-.
    split; [exact Hdn|reflexivity].
Qed.

(* ----------------------------------------------------------------- *)
(** ** The two [main]s, counted *)

Lemma writes_app (a b : list Event) : writes (a ++ b) = writes a ++ writes b.
Proof. apply filter_app. Qed.

Lemma mine_published fuel api date limit state r :
  mine_pages fuel api date limit 1 (start state) = Some r ->
  exists docs,
    published_docs (run_state r) = published_docs state ++ map doc_num docs
    /\ next_story_num (run_state r) = next_story_num state + len docs
    /\ new_stories r = map story_of (numbered (next_story_num state) docs)
    /\ writes (run_trace r) = map write_of (numbered (next_story_num state) docs)
    /\ len (new_stories r) = len docs.
Proof.
  intros H. destruct (mine_pages_published _ _ _ _ _ _ _ H)
    as (docs & H1 & H2 & H3 & H4 & _). simpl in H1, H2, H3, H4.
  exists docs. repeat split; try assumption.
  rewrite H3. unfold len. now rewrite length_map, numbered_length.
Qed.

(** What one pass of the date loop does, read backwards. *)
Lemma day_inv fuel api clock c i l l' :
  Historical.day fuel api clock c i l = Some l' ->
  exists r,
    Historical.mine_date_all fuel api (clock i) (Historical.state l) = Some r
    /\ Historical.state l' = run_state r
    /\ Historical.total_new l' = Historical.total_new l + len (new_stories r)
    /\ ((c <= len (Historical.batch_stories l ++ new_stories r)
         /\ Historical.batch_stories l' = []
         /\ Historical.trace l'
            = (Historical.trace l ++ run_trace r)
              ++ [SaveState (run_state r);
                  GitPush (Historical.push_message
                             (len (Historical.batch_stories l ++ new_stories r)))])
        \/ (len (Historical.batch_stories l ++ new_stories r) < c
            /\ Historical.batch_stories l'
               = Historical.batch_stories l ++ new_stories r
            /\ Historical.trace l' = Historical.trace l ++ run_trace r)).
Proof.
  unfold Historical.day.
  destruct (Historical.mine_date_all fuel api (clock i) (Historical.state l))
    as [r|]; [|discriminate].
  destruct (Z.geb_spec (len (Historical.batch_stories l ++ new_stories r)) c);
    intros [= <-]; exists r; cbn; repeat split; auto.
Qed.

Lemma days_published fuel api clock c range : forall l l',
  Historical.days fuel api clock c range l = Some l' ->
  exists docs,
    writes (Historical.trace l')
    = writes (Historical.trace l)
      ++ map write_of (numbered (next_story_num (Historical.state l)) docs)
    /\ published_docs (Historical.state l')
       = published_docs (Historical.state l) ++ map doc_num docs
    /\ next_story_num (Historical.state l')
       = next_story_num (Historical.state l) + len docs
    /\ Historical.total_new l' = Historical.total_new l + len docs.
Proof.
  induction range as [|i range IH]; intros l l'; cbn [Historical.days].
  - intros [= <-]. exists []. cbn. rewrite !app_nil_r.
    change (len []) with 0. repeat split; lia.
  - destruct (Historical.day fuel api clock c i l) as [l1|] eqn:Hday;
      [|discriminate].
    intros Hrest. destruct (IH _ _ Hrest) as (docs2 & W2 & L2 & C2 & T2).
    destruct (day_inv _ _ _ _ _ _ _ Hday) as (r & Hr & Hs & Ht & Hcase).
    destruct (mine_published _ _ _ _ _ _ Hr) as (docs1 & L1 & C1 & _ & W1 & N1).
    assert (Hw : writes (Historical.trace l1)
                 = writes (Historical.trace l) ++ writes (run_trace r)).
    { destruct Hcase as [(_ & _ & ->)|(_ & _ & ->)];
        rewrite !writes_app; cbn; now rewrite ?app_nil_r. }
    exists (docs1 ++ docs2).
    rewrite numbered_app, !map_app, len_app.
    rewrite W2, L2, C2, T2, Hw, Hs, W1, L1, C1, Ht, N1, <- !app_assoc.
    repeat split; lia.
Qed.

Lemma main_published (w : World) (n : Z) (tr : list Event) :
  main_returns w n tr ->
  exists docs,
    writes tr = map write_of (numbered (get_next_story_num (listdir w)) docs)
    /\ n = len docs.
Proof.
  intros [(fuel & api & today & H)|(fuel & api & clock & days_back & c & H)].
  - unfold Daily.main in H. fold (first_state w) in H.
    destruct (Daily.mine_date fuel api today (first_state w) 100) as [r|] eqn:Hr;
      [|discriminate].
    destruct (mine_published _ _ _ _ _ _ Hr) as (docs & _ & _ & _ & W & N).
    exists docs. cbn in W.
    destruct (new_stories r) as [|s ss] eqn:Hs.
    + injection H as <- <-. split; [exact W|]. rewrite <- N. reflexivity.
    + injection H as <- <-. rewrite writes_app. cbn. rewrite app_nil_r.
      split; [exact W|exact N].
  - unfold Historical.main in H. fold (first_state w) in H.
    destruct (Historical.days _ _ _ _ _ _) as [l|] eqn:Hd; [|discriminate].
    injection H as <- <-.
    destruct (days_published _ _ _ _ _ _ _ Hd) as (docs & W & _ & _ & T).
    cbn in W, T. exists docs. split; [|exact T].
    rewrite writes_app, W. unfold Historical.final_flush.
    destruct (Historical.batch_stories l); cbn; now rewrite app_nil_r.
Qed.

(** X9: in a run of either [main], every artifact is written under a name
    the directory did not hold when the run began and under a number from
    the scanned cursor on; no two artifacts of the run share a name; the
    number returned is the number of artifacts written. *)
Theorem artifacts_get_fresh_names (w : World) (n : Z) (tr : list Event) :
  main_returns w n tr ->
  (forall d k f, In (WriteStory d k f) tr ->
                 ~ In f (listdir w) /\ get_next_story_num (listdir w) <= k)
  /\ NoDup (written_names tr)
  /\ n = len (written_names tr).
Proof.
  intros H. destruct (main_published _ _ _ H) as (docs & W & ->).
  destruct (written_names_writes _ _ _ W) as [Hn Hin].
  assert (Hpos : 0 <= get_next_story_num (listdir w)).
  { destruct (get_next_story_num_attained (listdir w))
      as [[_ E]|(f & m & _ & Hm & E)]; rewrite E; [lia|].
    apply artifact_seq_nonneg in Hm. lia. }
  split; [|split].
  - intros d k f Hf. destruct (Hin d k f Hf) as [Hdn ->]. split.
    + exact (numbered_names_fresh _ _ _ (Z.le_refl _) _ Hdn).
    + apply numbered_range in Hdn. lia.
  - rewrite Hn. now apply numbered_names_nodup.
  - rewrite Hn. unfold len. now rewrite length_map, numbered_length.
Qed.

(** X10: scanning the directory after a run of either [main] - the names
    it held plus the names written - gives the scanned cursor of the run
    plus the number returned: the next run numbers its stories right after
    those of this one. *)
Theorem rescan_after_main (w : World) (n : Z) (tr : list Event) :
  main_returns w n tr ->
  get_next_story_num (listdir w ++ written_names tr)
  = get_next_story_num (listdir w) + n.
Proof.
  intros H. destruct (main_published _ _ _ H) as (docs & W & ->).
  destruct (written_names_writes _ _ _ W) as [-> _].
  apply rescan_after_numbered.
Qed.

Lemma sample_main_returns :
  exists tr, main_returns (sample_world 547) 1 tr
             /\ written_names tr = [lit "story-013-fr-notice-of-meeting-2.html"].
Proof.
  eexists. split.
  - left. exists 1%nat, two_docs_api, sample_date. vm_compute. reflexivity.
  - vm_compute. reflexivity.
Qed.

Lemma artifacts_get_fresh_names_witness :
  exists tr,
    main_returns (sample_world 547) 1 tr
    /\ NoDup (written_names tr)
    /\ 1 = len (written_names tr).
Proof.
  destruct sample_main_returns as (tr & Hm & _).
  exists tr. split; [exact Hm|].
  exact (proj2 (artifacts_get_fresh_names _ _ _ Hm)).
Defined.

Lemma rescan_after_main_witness :
  exists tr,
    main_returns (sample_world 547) 1 tr
    /\ get_next_story_num (listdir (sample_world 547) ++ written_names tr) = 14.
Proof.
  destruct sample_main_returns as (tr & Hm & _).
  exists tr. split; [exact Hm|].
  rewrite (rescan_after_main _ _ _ Hm). reflexivity.
Defined.

(* ----------------------------------------------------------------- *)
(** ** What is saved when [main] returns *)

Lemma last_saved_app (a b : list Event) :
  last_saved (a ++ b)
  = match last_saved b with
    | Some s => Some s
    | None => last_saved a
    end.
Proof.
  induction a as [|e a IH]; cbn [app last_saved].
  - now destruct (last_saved b).
  - rewrite IH. now destruct (last_saved b).
Qed.

Lemma last_saved_none (tr : list Event) :
  (forall e, In e tr -> ~ is_checkpoint e) -> last_saved tr = None.
Proof.
  induction tr as [|e tr IH]; intros H; cbn [last_saved]; [reflexivity|].
  rewrite IH by (intros e' He'; apply H; now right).
  destruct e; try reflexivity. exfalso. apply (H (SaveState s)); [now left|exact I].
Qed.

Lemma state_eta (s : State) :
  s = {| published_docs := published_docs s; next_story_num := next_story_num s |}.
Proof. now destruct s. Qed.

Lemma mine_nothing_keeps_state fuel api date limit state r :
  mine_pages fuel api date limit 1 (start state) = Some r ->
  new_stories r = [] -> run_state r = state.
Proof.
  intros H Hn. destruct (mine_published _ _ _ _ _ _ H)
    as (docs & L & C & _ & _ & N).
  rewrite Hn in N. change (len []) with 0 in N.
  assert (docs = []).
  { destruct docs; [reflexivity|]. unfold len in N. cbn in N. lia. }
  subst docs. cbn in L, C. rewrite app_nil_r in L.
  rewrite (state_eta (run_state r)), (state_eta state), L, C.
  f_equal. change (len []) with 0. lia.
Qed.

Lemma days_saved fuel api clock c range : forall l l',
  Historical.days fuel api clock c range l = Some l' ->
  (Historical.batch_stories l = [] ->
   last_saved (Historical.trace l) = Some (Historical.state l)
   \/ Historical.total_new l = 0) ->
  0 <= Historical.total_new l ->
  (Historical.batch_stories l' = [] ->
   last_saved (Historical.trace l') = Some (Historical.state l')
   \/ Historical.total_new l' = 0)
  /\ 0 <= Historical.total_new l'.
Proof.
  induction range as [|i range IH]; intros l l'; cbn [Historical.days].
  - intros [= <-]. auto.
  - destruct (Historical.day fuel api clock c i l) as [l1|] eqn:Hday;
      [|discriminate].
    intros Hrest J Hpos. apply (IH _ _ Hrest).
    + destruct (day_inv _ _ _ _ _ _ _ Hday) as (r & Hr & Hs & Ht & Hcase).
      intros Hb.
      destruct Hcase as [(_ & _ & Htr)|(_ & Hbatch & Htr)].
      * left. rewrite Htr, last_saved_app, Hs. reflexivity.
      * rewrite Hbatch in Hb. apply app_eq_nil in Hb as [Hb1 Hb2].
        rewrite Htr, last_saved_app, Hs, Ht, Hb2.
        rewrite (last_saved_none (run_trace r))
          by exact (mine_pages_no_checkpoint _ _ _ _ _ _ Hr).
        rewrite (mine_nothing_keeps_state _ _ _ _ _ _ Hr Hb2).
        change (len []) with 0. rewrite Z.add_0_r. now apply J.
    + destruct (day_inv _ _ _ _ _ _ _ Hday) as (r & _ & _ & Ht & _).
      pose proof (len_nonneg (new_stories r)). lia.
Qed.

(** X11: when a run of either [main] returns a number above zero, the
    state it saved last holds in its ledger, after the identifiers it
    started with, the identifier of every document it wrote an artifact
    for, in the order of the writes, and its cursor is the scanned cursor
    plus the number returned: nothing published is left unrecorded. *)
Theorem main_saves_what_it_published (w : World) (n : Z) (tr : list Event) :
  main_returns w n tr ->
  0 < n ->
  exists st docs,
    last_saved tr = Some st
    /\ writes tr = map write_of (numbered (get_next_story_num (listdir w)) docs)
    /\ published_docs st
       = published_docs (load_state (state_file w)) ++ map doc_num docs
    /\ next_story_num st = get_next_story_num (listdir w) + n.
Proof.
  intros [(fuel & api & today & H)|(fuel & api & clock & days_back & c & H)] Hn.
  - unfold Daily.main in H. fold (first_state w) in H.
    destruct (Daily.mine_date fuel api today (first_state w) 100) as [r|] eqn:Hr;
      [|discriminate].
    destruct (mine_published _ _ _ _ _ _ Hr) as (docs & L & C & _ & W & N).
    change (published_docs (first_state w))
      with (published_docs (load_state (state_file w))) in L.
    change (next_story_num (first_state w))
      with (get_next_story_num (listdir w)) in C, W.
    destruct (new_stories r) as [|s ss] eqn:Hs; injection H as <- <-; [lia|].
    exists (run_state r), docs.
    rewrite last_saved_app, writes_app, app_nil_r.
    repeat split; try assumption. rewrite C, N. reflexivity.
  - unfold Historical.main in H. fold (first_state w) in H.
    destruct (Historical.days _ _ _ _ _ _) as [l|] eqn:Hd; [|discriminate].
    injection H as <- <-.
    destruct (days_published _ _ _ _ _ _ _ Hd) as (docs & W & L & C & T).
    destruct (days_saved _ _ _ _ _ _ _ Hd) as [J _];
      [now right|cbn [Historical.total_new]; lia|].
    cbn [Historical.trace Historical.state Historical.total_new writes filter app]
      in W, L, C, T.
    change (published_docs (first_state w))
      with (published_docs (load_state (state_file w))) in L.
    change (next_story_num (first_state w))
      with (get_next_story_num (listdir w)) in C, W.
    rewrite Z.add_0_l in T.
    exists (Historical.state l), docs.
    rewrite writes_app, W, last_saved_app. unfold Historical.final_flush.
    destruct (Historical.batch_stories l) as [|s ss] eqn:Hb.
    + rewrite app_nil_r. destruct (J eq_refl) as [E|E]; [|lia].
      repeat split; try assumption. rewrite C, T. reflexivity.
    + rewrite app_nil_r. repeat split; try assumption.
      rewrite C, T. reflexivity.
Qed.

Lemma main_saves_what_it_published_witness :
  exists tr st,
    main_returns (sample_world 547) 1 tr
    /\ last_saved tr = Some st
    /\ next_story_num st = 14.
Proof.
  destruct sample_main_returns as (tr & Hm & _).
  destruct (main_saves_what_it_published _ _ _ Hm ltac:(lia))
    as (st & docs & Hs & _ & _ & Hc).
  exists tr, st. auto.
Defined.

(* ----------------------------------------------------------------- *)
(** ** The run of [federal_register_miner.main] *)

Lemma mine_pages_mining_events api date limit fuel state res :
  mine_pages fuel api date limit 1 (start state) = Some res ->
  forall e, In e (run_trace res) -> is_mining e.
Proof.
  apply (mine_pages_invariant api date limit (start state)
           (fun x => forall e, In e (run_trace x) -> is_mining e)).
  - intros x q Hx _ e He. simpl in He.
    apply in_app_or in He as [He|[<-|[]]]; [auto|exact I].
  - intros x q data doc Hx _ _ _ _ _ e He. rewrite publish_trace in He.
    apply in_app_or in He as [He|[<-|[]]]; [auto|exact I].
  - contradiction.
  - now right.
Qed.

Lemma no_writes_requests_only (tr : list Event) :
  (forall e, In e tr -> is_mining e) -> writes tr = [] ->
  forall e, In e tr -> is_request e.
Proof.
  intros Hm Hw e He. pose proof (Hm e He) as Hme.
  destruct e; try contradiction; [exact I|].
  assert (Hin : In (WriteStory doc story_num filename) (writes tr)).
  { unfold writes. apply filter_In. split; [exact He|reflexivity]. }
  rewrite Hw in Hin. contradiction.
Qed.

(** X12: [federal_register_miner.main] returns a number from 0 to 100.
    When it returns 0 it has only sent requests: no artifact written, no
    index written, no state saved, nothing pushed.  When it returns more,
    the trace ends with the index written, then the state saved, then one
    push, and before them come requests and artifacts only. *)
Theorem daily_main_outcome fuel api today w n tr :
  Daily.main fuel api today w = Some (n, tr) ->
  0 <= n <= 100
  /\ (n = 0 -> forall e, In e tr -> is_request e)
  /\ (0 < n ->
      exists tr0 content st,
        tr = tr0 ++ [WriteIndex content; SaveState st;
                     GitPush (Daily.push_message n today)]
        /\ forall e, In e tr0 -> is_mining e).
Proof.
  unfold Daily.main. fold (first_state w).
  destruct (Daily.mine_date fuel api today (first_state w) 100) as [r|] eqn:Hr;
    [|discriminate].
  pose proof (mine_pages_batch_bound _ _ _ _ _ _ Hr) as Hb.
  pose proof (mine_pages_mining_events _ _ _ _ _ _ Hr) as Hev.
  destruct (mine_published _ _ _ _ _ _ Hr) as (docs & _ & _ & _ & W & N).
  destruct (new_stories r) as [|s ss] eqn:Hs; intros [= <- <-].
  - split; [lia|]. split; [|lia]. intros _.
    apply no_writes_requests_only; [exact Hev|].
    rewrite W. change (len []) with 0 in N.
    destruct docs; [reflexivity|]. unfold len in N. cbn in N. lia.
  - pose proof (len_nonneg (s :: ss)).
    assert (0 < len (s :: ss)) by (unfold len; cbn; lia).
    split; [lia|]. split; [lia|]. intros _.
    exists (run_trace r). eauto.
Qed.

Lemma daily_main_outcome_witness :
  exists n tr,
    Daily.main 1 two_docs_api sample_date (sample_world 547) = Some (n, tr)
    /\ 0 <= n <= 100.
Proof.
  assert (E : exists n tr,
             Daily.main 1 two_docs_api sample_date (sample_world 547)
             = Some (n, tr)).
  { do 2 eexists. vm_compute. reflexivity. }
  destruct E as (n & tr & H). exists n, tr. split; [exact H|].
  exact (proj1 (daily_main_outcome _ _ _ _ _ _ H)).
Defined.

(* ----------------------------------------------------------------- *)
(** ** The run of [historical_fr_miner.main] *)

Lemma pushes_app (a b : list Event) : pushes (a ++ b) = pushes a ++ pushes b.
Proof. apply filter_app. Qed.

Lemma pushes_none (tr : list Event) :
  (forall e, In e tr -> ~ is_checkpoint e) -> pushes tr = [].
Proof.
  induction tr as [|e tr IH]; intros H; [reflexivity|].
  unfold pushes in *. cbn [filter].
  destruct e; cbn [is_push]; try (apply IH; intros e' He'; apply H; now right).
  exfalso. apply (H (GitPush message)); [now left|exact I].
Qed.

Lemma days_push_every_day fuel api clock c range : forall l l',
  c <= 0 ->
  Historical.days fuel api clock c range l = Some l' ->
  Historical.batch_stories l = [] ->
  List.length (pushes (Historical.trace l'))
  = (List.length (pushes (Historical.trace l)) + List.length range)%nat
  /\ Historical.batch_stories l' = [].
Proof.
  induction range as [|i range IH]; intros l l' Hc; cbn [Historical.days].
  - intros [= <-] Hb. split; [cbn; lia|exact Hb].
  - destruct (Historical.day fuel api clock c i l) as [l1|] eqn:Hday;
      [|discriminate].
    intros Hrest _.
    destruct (day_inv _ _ _ _ _ _ _ Hday) as (r & Hr & _ & _ & Hcase).
    destruct Hcase as [(_ & Hb & Htr)|(Hlt & _)].
    + destruct (IH _ _ Hc Hrest Hb) as [Hlen Hbatch].
      split; [|exact Hbatch].
      rewrite Hlen, Htr, !pushes_app, !length_app.
      rewrite (pushes_none (run_trace r))
        by exact (mine_pages_no_checkpoint _ _ _ _ _ _ Hr).
      cbn. lia.
    + pose proof (len_nonneg (Historical.batch_stories l ++ new_stories r)).
      lia.
Qed.

Lemma days_nothing_mined fuel api clock c range : forall l l',
  1 <= c ->
  Historical.days fuel api clock c range l = Some l' ->
  0 <= Historical.total_new l ->
  Historical.total_new l' = 0 ->
  Historical.batch_stories l = [] ->
  (forall e, In e (Historical.trace l) -> is_request e) ->
  Historical.batch_stories l' = []
  /\ forall e, In e (Historical.trace l') -> is_request e.
Proof.
  induction range as [|i range IH]; intros l l' Hc; cbn [Historical.days].
  - intros [= <-]. auto.
  - destruct (Historical.day fuel api clock c i l) as [l1|] eqn:Hday;
      [|discriminate].
    intros Hrest Hpos Hzero Hb Hreq.
    destruct (days_published _ _ _ _ _ _ _ Hrest) as (docs & _ & _ & _ & T).
    destruct (day_inv _ _ _ _ _ _ _ Hday) as (r & Hr & _ & Ht & Hcase).
    pose proof (len_nonneg docs). pose proof (len_nonneg (new_stories r)).
    assert (Hn : new_stories r = []).
    { destruct (new_stories r) as [|s ss]; [reflexivity|].
      unfold len in *. cbn in *. lia. }
    rewrite Hb, Hn in Hcase. change (len ([] ++ [])) with 0 in Hcase.
    destruct Hcase as [(Hge & _)|(_ & Hb1 & Htr)]; [lia|].
    apply (IH _ _ Hc Hrest); [lia|exact Hzero|exact Hb1|].
    intros e He. rewrite Htr in He. apply in_app_or in He as [He|He]; [auto|].
    destruct (mine_published _ _ _ _ _ _ Hr) as (docs1 & _ & _ & _ & W & N).
    rewrite Hn in N. change (len []) with 0 in N.
    assert (docs1 = []).
    { destruct docs1; [reflexivity|]. unfold len in N. cbn in N. lia. }
    subst docs1.
    exact (no_writes_requests_only _
             (mine_pages_mining_events _ _ _ _ _ _ Hr) W e He).
Qed.

(** X13: the checkpoint of [historical_fr_miner.main] at its edges.  With a
    threshold of zero or less the test passes on every date, so the run
    saves and pushes once for each date of the range, whether or not the
    date brought a story.  With a threshold of one or more, a run that
    returns 0 has only sent requests: nothing written, saved or pushed. *)
Theorem historical_checkpoint_edges fuel api clock w days_back c n tr :
  Historical.main fuel api clock w days_back c = Some (n, tr) ->
  (c <= 0 -> List.length (pushes tr) = days_back)
  /\ (1 <= c -> n = 0 -> forall e, In e tr -> is_request e).
Proof.
  unfold Historical.main. fold (first_state w).
  destruct (Historical.days _ _ _ _ _ _) as [l|] eqn:Hd; [|discriminate].
  intros [= <- <-]. split.
  - intros Hc.
    destruct (days_push_every_day _ _ _ _ _ _ _ Hc Hd eq_refl) as [Hlen Hb].
    rewrite pushes_app, length_app, Hlen, length_seq.
    unfold Historical.final_flush. rewrite Hb. cbn. lia.
  - intros Hc Hzero.
    destruct (days_nothing_mined _ _ _ _ _ _ _ Hc Hd) as [Hb Hreq];
      [cbn; lia|exact Hzero|reflexivity|contradiction|].
    unfold Historical.final_flush. rewrite Hb, app_nil_r. exact Hreq.
Qed.

Lemma historical_checkpoint_edges_witness :
  (exists n tr,
      Historical.main 1 (fun _ _ => FetchError) sample_clock empty_world 3 0
      = Some (n, tr)
      /\ List.length (pushes tr) = 3%nat)
  /\ (exists tr,
         Historical.main 1 (fun _ _ => FetchError) sample_clock empty_world 3 100
         = Some (0, tr)
         /\ forall e, In e tr -> is_request e).
Proof.
  split.
  - assert (E : exists n tr,
               Historical.main 1 (fun _ _ => FetchError) sample_clock
                 empty_world 3 0 = Some (n, tr)).
    { do 2 eexists. vm_compute. reflexivity. }
    destruct E as (n & tr & H). exists n, tr. split; [exact H|].
    apply (proj1 (historical_checkpoint_edges _ _ _ _ _ _ _ _ H)). lia.
  - assert (E : exists tr,
               Historical.main 1 (fun _ _ => FetchError) sample_clock
                 empty_world 3 100 = Some (0, tr)).
    { eexists. vm_compute. reflexivity. }
    destruct E as (tr & H). exists tr. split; [exact H|].
    apply (proj2 (historical_checkpoint_edges _ _ _ _ _ _ _ _ H)); lia.
Defined.

Lemma fetches_app (a b : list Event) : fetches (a ++ b) = fetches a ++ fetches b.
Proof. apply flat_map_app. Qed.

Lemma days_fetches fuel api clock c range : forall l l',
  Historical.days fuel api clock c range l = Some l' ->
  exists ns,
    List.length ns = List.length range
    /\ Forall (fun k => (1 <= k <= fuel)%nat) ns
    /\ fetches (Historical.trace l')
       = fetches (Historical.trace l)
         ++ flat_map (day_requests clock) (combine range ns).
Proof.
  induction range as [|i range IH]; intros l l'; cbn [Historical.days].
  - intros [= <-]. exists []. cbn. now rewrite app_nil_r.
  - destruct (Historical.day fuel api clock c i l) as [l1|] eqn:Hday;
      [|discriminate].
    intros Hrest. destruct (IH _ _ Hrest) as (ns & Hlen & Hall & Hf).
    destruct (day_inv _ _ _ _ _ _ _ Hday) as (r & Hr & _ & _ & Hcase).
    destruct (mine_pages_fetch_list _ _ _ _ _ _ _ Hr) as (k & Hk & Hfr & _).
    exists (k :: ns). split; [cbn; now rewrite Hlen|].
    split; [now constructor|].
    assert (E : fetches (Historical.trace l1)
                = fetches (Historical.trace l) ++ pages_from (clock i) 1 k).
    { destruct Hcase as [(_ & _ & ->)|(_ & _ & ->)];
        rewrite !fetches_app, Hfr; cbn; now rewrite ?app_nil_r. }
    rewrite Hf, E, <- app_assoc. reflexivity.
Qed.

(** X14: [historical_fr_miner.main] goes through the dates in order, today
    first: its requests are, for each date of the range in turn, the pages
    1, 2, ..., k of that date with k at least 1.  So every date of the range
    is asked for, whatever happened on the dates before it (a failed fetch
    on one date does not end the run), and no date is asked for twice. *)
Theorem historical_dates_in_order fuel api clock w days_back c n tr :
  Historical.main fuel api clock w days_back c = Some (n, tr) ->
  exists ns,
    List.length ns = days_back
    /\ Forall (fun k => (1 <= k <= fuel)%nat) ns
    /\ fetches tr
       = flat_map (day_requests clock) (combine (seq 0 days_back) ns).
Proof.
  unfold Historical.main.
  destruct (Historical.days _ _ _ _ _ _) as [l|] eqn:Hd; [|discriminate].
  intros [= <- <-].
  destruct (days_fetches _ _ _ _ _ _ _ Hd) as (ns & Hlen & Hall & Hf).
  exists ns. rewrite length_seq in Hlen. split; [exact Hlen|].
  split; [exact Hall|].
  rewrite fetches_app, Hf. unfold Historical.final_flush.
  destruct (Historical.batch_stories l); cbn; now rewrite app_nil_r.
Qed.

Lemma historical_dates_in_order_witness :
  exists n tr,
    Historical.main 5 failing_api sample_clock empty_world 2 100 = Some (n, tr)
    /\ fetches tr = [(sample_clock 0, 1); (sample_clock 0, 2);
                     (sample_clock 1, 1); (sample_clock 1, 2)]
    /\ exists ns, List.length ns = 2%nat
                  /\ fetches tr = flat_map (day_requests sample_clock)
                                    (combine (seq 0 2) ns).
Proof.
  assert (E : exists n tr,
             Historical.main 5 failing_api sample_clock empty_world 2 100
             = Some (n, tr)
             /\ fetches tr = [(sample_clock 0, 1); (sample_clock 0, 2);
                              (sample_clock 1, 1); (sample_clock 1, 2)]).
  { do 2 eexists. split; vm_compute; reflexivity. }
  destruct E as (n & tr & H & Hf). exists n, tr.
  split; [exact H|]. split; [exact Hf|].
  destruct (historical_dates_in_order _ _ _ _ _ _ _ _ H) as (ns & Hl & _ & E).
  now exists ns.
Defined.

(* ----------------------------------------------------------------- *)
(** ** Both [main]s return when the pages end *)

Lemma mine_returns api date limit bound state :
  api_ends api date bound ->
  exists res,
    mine_pages (S (Z.to_nat bound)) api date limit 1 (start state) = Some res.
Proof.
  intros Hend. apply (mine_pages_terminates api date limit bound Hend). lia.
Qed.

Lemma days_return api clock c bound range : forall l,
  (forall i, In i range -> api_ends api (clock i) bound) ->
  exists l', Historical.days (S (Z.to_nat bound)) api clock c range l = Some l'.
Proof.
  induction range as [|i range IH]; intros l Hend; cbn [Historical.days];
    [eauto|].
  destruct (mine_returns api (clock i) None bound (Historical.state l)
              (Hend i (or_introl eq_refl))) as [r Hr].
  unfold Historical.day, Historical.mine_date_all. rewrite Hr.
  destruct (_ >=? c); apply IH; intros j Hj; apply Hend; now right.
Qed.

(** X15: both [main]s return - neither raises nor loops - whenever the
    pages of each date they mine come to an end: there is a page [bound]
    from which on a fetch fails, a page is empty or [total_pages] is
    reached.  The number of turns of the mining loop needed for each date
    is at most [bound] (and at least one). *)
Theorem mains_return_when_pages_end api w bound :
  (forall today,
      api_ends api today bound ->
      exists res, Daily.main (S (Z.to_nat bound)) api today w = Some res)
  /\ (forall clock days_back c,
      (forall i, (i < days_back)%nat -> api_ends api (clock i) bound) ->
      exists res,
        Historical.main (S (Z.to_nat bound)) api clock w days_back c = Some res).
Proof.
  split.
  - intros today Hend. unfold Daily.main, Daily.mine_date.
    destruct (mine_returns api today (Some 100) bound
                (set_next_story_num (load_state (state_file w))
                   (get_next_story_num (listdir w))) Hend) as [r ->].
    destruct (new_stories r); eauto.
  - intros clock days_back c Hend. unfold Historical.main.
    destruct (days_return api clock c bound (seq 0 days_back)
                {| Historical.state :=
                     set_next_story_num (load_state (state_file w))
                       (get_next_story_num (listdir w));
                   Historical.total_new := 0;
                   Historical.batch_stories := [];
                   Historical.trace := [] |}) as [l ->]; [|eauto].
    intros i Hi. apply in_seq in Hi. apply Hend. lia.
Qed.

Lemma two_docs_api_ends (date : str) : api_ends two_docs_api date 1.
Proof.
  intros p Hp. unfold stops_at, two_docs_api.
  destruct (p =? 1); [right; unfold get_total_pages; simpl; lia|now left].
Qed.

Lemma mains_return_when_pages_end_witness :
  (exists res, Daily.main 2 two_docs_api sample_date empty_world = Some res)
  /\ (exists res,
         Historical.main 2 two_docs_api sample_clock empty_world 3 100
         = Some res).
Proof.
  destruct (mains_return_when_pages_end two_docs_api empty_world 1) as [Hd Hh].
  split.
  - exact (Hd sample_date (two_docs_api_ends sample_date)).
  - apply (Hh sample_clock 3%nat 100). intros i _. apply two_docs_api_ends.
Defined.

(* ----------------------------------------------------------------- *)
(** ** [update_index], batch after batch *)




(* ----------------------------------------------------------------- *)
(** ** The summary *)

Lemma agency_names_not_empty (agencies : list (option str)) :
  agency_names agencies <> [].
Proof.
  unfold agency_names. destruct (join _ _); discriminate.
Qed.

(** X17: the summary of an artifact is never empty.  With an abstract that
    is not empty it has at most 503 characters: the abstract itself up to
    500 characters, its first 500 characters followed by three dots beyond.
    Without one (the key absent, null or empty) it is the sentence naming
    the type and the agencies, in which the agencies' part is never empty:
    without any agency name it reads "Federal Government". *)
Theorem summary_shape (d : Details) :
  summary d <> []
  /\ agency_names (agencies d) <> []
  /\ (forall a, doc_abstract d = Some a -> a <> [] ->
        (List.length (summary d) <= 503)%nat
        /\ firstn 500 (summary d) = firstn 500 a
        /\ ((List.length a <= 500)%nat -> summary d = a)
        /\ ((500 < List.length a)%nat ->
            summary d = firstn 500 a ++ lit "..."))
  /\ (doc_abstract d = None \/ doc_abstract d = Some [] ->
      exists t, summary d
                = lit "The Federal Register has published a new " ++ t
                  ++ lit " from " ++ agency_names (agencies d) ++ lit "."
                /\ (doc_type d = None -> t = lit "Document")
                /\ (forall t', doc_type d = Some t' -> t = t')).
Proof.
  split; [|split; [apply agency_names_not_empty|split]].
  - unfold summary. destruct (doc_abstract d) as [[|c a]|]; try discriminate.
    destruct (500 <? _)%nat; discriminate.
  - intros a Ha Hne. unfold summary. rewrite Ha.
    destruct a as [|c a]; [contradiction|].
    destruct (Nat.ltb_spec 500 (List.length (c :: a))) as [Hlt|Hle].
    + repeat split.
      * rewrite length_app, length_firstn.
        change (List.length (lit "...")) with 3%nat. lia.
      * rewrite firstn_app, firstn_firstn, length_firstn.
        replace (Nat.min 500 500) with 500%nat by reflexivity.
        replace (500 - Nat.min 500 (List.length (c :: a)))%nat with 0%nat by lia.
        cbn [firstn]. now rewrite app_nil_r.
      * lia.
    + repeat split; [lia|lia].
  - intros Hnone.
    exists (match doc_type d with Some t => t | None => lit "Document" end).
    split.
    + unfold summary. destruct Hnone as [-> | ->]; reflexivity.
    + split; [now intros ->|now intros t' ->].
Qed.

Lemma summary_shape_witness :
  let d := {| doc_type := Some (lit "Notice");
              doc_abstract := None;
              agencies := [Some (lit "Department of Energy")] |} in
  summary d
  = lit "The Federal Register has published a new Notice from Department of Energy."
  /\ summary d <> [].
Proof.
  intros d. split; [vm_compute; reflexivity|].
  exact (proj1 (summary_shape d)).
Defined.

(* ----------------------------------------------------------------- *)
(** ** Running the daily miner again *)

Lemma get_next_story_num_ignores (l extra : list str) :
  (forall f, In f extra -> artifact_seq f = None) ->
  get_next_story_num (l ++ extra) = get_next_story_num l.
Proof.
  intros Hnone. apply Z.le_antisymm.
  - destruct (get_next_story_num_attained (l ++ extra))
      as [[_ E]|(f & m & Hf & Hm & E)]; rewrite E;
      [apply get_next_story_num_pos|].
    apply in_app_or in Hf as [Hf|Hf].
    + exact (get_next_story_num_upper _ _ _ Hf Hm).
    + rewrite (Hnone f Hf) in Hm. discriminate.
  - apply get_next_story_num_mono. now apply incl_appl.
Qed.

Lemma bookkeeping_names_no_artifact (tr : list Event) (f : str) :
  In f (bookkeeping_names tr) -> artifact_seq f = None.
Proof.
  unfold bookkeeping_names. intros H. apply in_app_or in H as [H|H].
  - destruct (last_index tr); [|contradiction].
    destruct H as [<-|[]]. reflexivity.
  - destruct (last_saved tr); [|contradiction].
    destruct H as [<-|[]]. reflexivity.
Qed.

(** X18: run [federal_register_miner.main] a second time, in the
    directory the first run left (its state file, its artifacts, its index)
    and against the same API: if the first run returned fewer than 100, the
    second run returns 0 and only sends requests - it writes no artifact,
    saves nothing and pushes nothing. *)
Theorem daily_main_twice fuel api today w n tr :
  Daily.main fuel api today w = Some (n, tr) ->
  n < 100 ->
  exists tr',
    Daily.main fuel api today (world_after w tr) = Some (0, tr')
    /\ forall e, In e tr' -> is_request e.
Proof.
  intros Hmain Hn.
  assert (Hret : main_returns w n tr) by (left; eauto).
  destruct (main_published _ _ _ Hret) as (docs & W & Hlen).
  destruct (written_names_writes _ _ _ W) as [Hnames _].
  unfold Daily.main in Hmain. fold (first_state w) in Hmain.
  destruct (Daily.mine_date fuel api today (first_state w) 100) as [r|] eqn:Hr;
    [|discriminate].
  destruct (mine_published _ _ _ _ _ _ Hr) as (docs' & L & C & _ & _ & N).
  assert (Hsaved : match last_saved tr with
                   | Some s => s = run_state r
                   | None => new_stories r = []
                   end
                   /\ len (new_stories r) = n).
  { destruct (new_stories r) as [|s ss] eqn:Hs; injection Hmain as <- <-.
    - rewrite (last_saved_none (run_trace r))
        by exact (mine_pages_no_checkpoint _ _ _ _ _ _ Hr). auto.
    - rewrite last_saved_app. cbn [last_saved]. auto. }
  destruct Hsaved as [Hsaved Hnr].
  assert (Hstate : first_state (world_after w tr) = run_state r).
  { unfold first_state, world_after. cbn [state_file listdir].
    rewrite app_assoc,
      (get_next_story_num_ignores _ _ (bookkeeping_names_no_artifact tr)),
      Hnames, rescan_after_numbered, <- Hlen.
    assert (Hd : len docs' = n) by lia.
    transitivity {| published_docs := published_docs (run_state r);
                    next_story_num := next_story_num (run_state r) |};
      [|symmetry; apply state_eta].
    rewrite C, Hd. unfold set_next_story_num. f_equal.
    destruct (last_saved tr) as [s|].
    - subst s. reflexivity.
    - rewrite Hsaved in N. change (len []) with 0 in N.
      assert (docs' = []).
      { destruct docs'; [reflexivity|]. unfold len in N. cbn in N. lia. }
      subst docs'. rewrite L. cbn. now rewrite app_nil_r. }
  assert (Hopen : batch_full (Some 100) r = false).
  { destruct (batch_full (Some 100) r) eqn:E; [|reflexivity].
    apply batch_full_spec in E. lia. }
  destruct (mine_pages_rerun _ _ _ _ _ _ _ (start (run_state r)) Hr
              Hopen (incl_refl _)) as (evs & Hrun & Hevs).
  exists evs. unfold Daily.main. fold (first_state (world_after w tr)).
  rewrite Hstate. unfold Daily.mine_date. rewrite Hrun. cbn.
  split; [reflexivity|].
  intros e He. rewrite Forall_forall in Hevs.
  destruct (Hevs e He) as [p ->]. exact I.
Qed.

Lemma daily_main_twice_witness :
  exists n tr tr',
    Daily.main 1 two_docs_api sample_date (sample_world 547) = Some (n, tr)
    /\ Daily.main 1 two_docs_api sample_date
         (world_after (sample_world 547) tr) = Some (0, tr').
Proof.
  assert (E : exists n tr,
             Daily.main 1 two_docs_api sample_date (sample_world 547)
             = Some (n, tr) /\ n < 100).
  { do 2 eexists. split; vm_compute; reflexivity. }
  destruct E as (n & tr & H & Hn).
  destruct (daily_main_twice _ _ _ _ _ _ H Hn) as (tr' & H' & _).
  exists n, tr, tr'. auto.
Defined.
